(** * MRI head motion tracker: measurement and classification engine

    A shallow embedding of [motion_tracker.py] (manual, single-marker mode)
    and [qr_tracker.py] (automatic, dual-marker mode).

    Conventions of the embedding.
    - Python floats and numpy scalars are idealised as real numbers [R];
      integer pixel coordinates (the result of [astype(int)]) are [Z].
      Rounding and overflow are outside the model.
    - The module-level globals of each script form one record, [Context],
      threaded through a small monad that also collects what is printed or
      drawn and records an uncaught Python exception.
    - Frame capture, marker decoding and the keyboard are inputs: a frame
      arrives with its detections (pixel width and integer centre already
      computed by numpy), the readings of [time.time()] and the key code. *)

From Stdlib Require Import String Ascii.
From Stdlib Require Import Reals Lra Lia ZArith List Bool.
Import ListNotations.

Open Scope string_scope.
Open Scope list_scope.
Open Scope R_scope.

(** ** Comparisons on reals as booleans *)

Definition Rltb (x y : R) : bool := if Rlt_dec x y then true else false.
Definition Rleb (x y : R) : bool := if Rle_dec x y then true else false.
Definition Reqb (x y : R) : bool := if Req_dec_T x y then true else false.

(** ** Data *)

Definition pixel : Type := (Z * Z)%type.
Definition color : Type := (Z * Z * Z)%type.

(** The module globals (lines 14-20 of [motion_tracker.py], 17-23 of
    [qr_tracker.py]).  [position_history] is a [deque(maxlen=100)] of
    [(pixel, timestamp)] pairs, oldest first. *)
Record Context : Type := mkContext {
  center_pixel : option pixel;
  is_center_set : bool;
  pixels_per_mm : option R;
  measurement_unit : string;
  position_history : list (pixel * R);
  last_movement_time : option R
}.

Definition TARGET_WIDTH_INCHES : R := 1.5.
Definition KNOWN_QR_CODE_WIDTH_CM : R := TARGET_WIDTH_INCHES * 2.54.
Definition MOVEMENT_THRESHOLD_MM : R := 2.5.
Definition STILL_TIME_THRESHOLD : R := 1.0.
Definition TARGET_QR_DATA : string := "MRI_HEAD_MOTION_TRACKER_V1.0".
Definition CENTER_QR_DATA : string := "MRI_CENTER_LOC".
Definition history_maxlen : nat := 100.

Definition initial_context (unit_choice : string) : Context :=
  mkContext None false None unit_choice [] None.

(** What a frame's processing hands to the display and to standard output.
    Formatted numbers stay numbers; outlines and arrows keep no geometry
    beyond the pixels they are anchored at. *)
Inductive Event : Type :=
| Print (msg : string)
| PrintCenter (msg : string) (at_pixel : pixel)
| DrawTarget (at_pixel : pixel)
| DrawCenterCode (at_pixel : pixel)
| DrawLine (from_pixel to_pixel : pixel)
| DrawArrow
| ShowAxes (x y : R) (unit_label : string)
| ShowTotal (total : R) (unit_label : string)
| ShowStatus (text : string) (col : color)
| ShowStillTime (seconds : R)
| ShowBanner (text : string)
| DrawReference (at_pixel : pixel)
| ShowCodes (names : list string)
| Present.

Inductive Exn : Type :=
| TypeError.

(** ** The monad: globals, output, uncaught exceptions *)

Inductive Outcome (A : Type) : Type :=
| Raised (e : Exn)
| Done (a : A) (s : Context) (out : list Event).

Arguments Raised {A} e.
Arguments Done {A} a s out.

Definition M (A : Type) : Type := Context -> Outcome A.

Definition ret {A} (a : A) : M A := fun s => Done a s [].

Definition bind {A B} (m : M A) (k : A -> M B) : M B :=
  fun s =>
    match m s with
    | Raised e => Raised e
    | Done a s1 o1 =>
        match k a s1 with
        | Raised e => Raised e
        | Done b s2 o2 => Done b s2 (o1 ++ o2)
        end
    end.

Definition get : M Context := fun s => Done s s [].
Definition put (s' : Context) : M unit := fun _ => Done tt s' [].
Definition emit (e : Event) : M unit := fun s => Done tt s [e].
Definition raise {A} (e : Exn) : M A := fun _ => Raised e.
Definition when (b : bool) (m : M unit) : M unit := if b then m else ret tt.

Notation "x <- m ;; k" := (bind m (fun x => k))
  (at level 61, m at next level, right associativity).
Notation "m ;;; k" := (bind m (fun _ => k))
  (at level 61, right associativity).

(** Assignments to single globals. *)
Definition set_center_pixel (v : option pixel) : M unit :=
  fun s => Done tt (mkContext v (is_center_set s) (pixels_per_mm s)
                      (measurement_unit s) (position_history s)
                      (last_movement_time s)) [].
Definition set_is_center_set (v : bool) : M unit :=
  fun s => Done tt (mkContext (center_pixel s) v (pixels_per_mm s)
                      (measurement_unit s) (position_history s)
                      (last_movement_time s)) [].
Definition set_pixels_per_mm (v : option R) : M unit :=
  fun s => Done tt (mkContext (center_pixel s) (is_center_set s) v
                      (measurement_unit s) (position_history s)
                      (last_movement_time s)) [].
Definition set_position_history (v : list (pixel * R)) : M unit :=
  fun s => Done tt (mkContext (center_pixel s) (is_center_set s)
                      (pixels_per_mm s) (measurement_unit s) v
                      (last_movement_time s)) [].
Definition set_last_movement_time (v : option R) : M unit :=
  fun s => Done tt (mkContext (center_pixel s) (is_center_set s)
                      (pixels_per_mm s) (measurement_unit s)
                      (position_history s) v) [].

(** [center_pixel[i]]: subscripting [None] raises. *)
Definition subscript (p : option pixel) : M pixel :=
  match p with
  | Some q => ret q
  | None => raise TypeError
  end.

(** ** The shared engine *)

(** [calculate_displacement], lines 22-34 (25-37 in [qr_tracker.py]). *)
Definition calculate_displacement (current_center_pixel : pixel)
  : M (R * R * R) :=
  s <- get ;;
  if negb (is_center_set s) then ret (0, 0, 0)
  else
    match pixels_per_mm s with
    | None => ret (0, 0, 0)
    | Some ppm =>
        if Reqb ppm 0 then ret (0, 0, 0)
        else
          ref <- subscript (center_pixel s) ;;
          let delta_x_pix := (fst current_center_pixel - fst ref)%Z in
          let delta_y_pix := (snd current_center_pixel - snd ref)%Z in
          let pixel_distance :=
            sqrt (IZR (delta_x_pix ^ 2 + delta_y_pix ^ 2)) in
          let mm_distance := pixel_distance / ppm in
          let delta_x_mm := IZR delta_x_pix / ppm in
          let delta_y_mm := IZR delta_y_pix / ppm in
          ret (mm_distance, delta_x_mm, delta_y_mm)
    end.

(** [deque.append] on a deque with [maxlen]: a full deque first drops its
    leftmost element. *)
Definition deque_append {A} (maxlen : nat) (d : list A) (x : A) : list A :=
  if (length d <? maxlen)%nat then d ++ [x] else tl d ++ [x].

(** The loop of lines 63-64: [popleft] while the front sample is older than
    three seconds. *)
Fixpoint evict_old (current_time : R) (d : list (pixel * R))
  : list (pixel * R) :=
  match d with
  | [] => []
  | sample :: rest =>
      if Rltb 3.0 (current_time - snd sample)
      then evict_old current_time rest
      else d
  end.

(** The comprehension of line 45. *)
Definition recent_positions (d : list (pixel * R)) (current_time : R)
  : list pixel :=
  map fst (filter (fun sample => Rleb (current_time - snd sample) 0.5) d).

Definition sum_Z (l : list Z) : Z := fold_left Z.add l 0%Z.

Definition avg_position (recent : list pixel) : R * R :=
  (IZR (sum_Z (map fst recent)) / INR (length recent),
   IZR (sum_Z (map snd recent)) / INR (length recent)).

Definition distance_pixels (current_center_pixel : pixel) (avg : R * R) : R :=
  sqrt ((IZR (fst current_center_pixel) - fst avg) ^ 2
        + (IZR (snd current_center_pixel) - snd avg) ^ 2).

(** Distance between two integer pixels, as line 173 of [qr_tracker.py]
    computes it. *)
Definition pixel_distance (a b : pixel) : R :=
  sqrt (IZR ((fst a - fst b) ^ 2 + (snd a - snd b) ^ 2)).

(** [update_position_history], lines 36-64 (39-67 in [qr_tracker.py]).
    The test of line 55, [pixels_per_mm and pixels_per_mm > 0], is false on
    [None] and on zero before the comparison is made. *)
Definition update_position_history (current_center_pixel : pixel)
  (current_time : R) : M unit :=
  s <- get ;;
  if (length (position_history s) =? 0)%nat then
    set_position_history
      (deque_append history_maxlen (position_history s)
         (current_center_pixel, current_time)) ;;;
    set_last_movement_time (Some current_time)
  else
    let recent := recent_positions (position_history s) current_time in
    (match recent with
     | [] => ret tt
     | _ :: _ =>
         let distance := distance_pixels current_center_pixel
                           (avg_position recent) in
         match pixels_per_mm s with
         | None => ret tt
         | Some ppm =>
             if negb (Reqb ppm 0) && Rltb 0 ppm then
               let distance_mm := distance / ppm in
               when (Rltb MOVEMENT_THRESHOLD_MM distance_mm)
                 (set_last_movement_time (Some current_time))
             else ret tt
         end
     end) ;;;
    s1 <- get ;;
    set_position_history
      (deque_append history_maxlen (position_history s1)
         (current_center_pixel, current_time)) ;;;
    s2 <- get ;;
    set_position_history (evict_old current_time (position_history s2)).

(** [is_qr_still], lines 66-69. *)
Definition is_qr_still (current_time : R) : M bool :=
  s <- get ;;
  match last_movement_time s with
  | None => ret false
  | Some t => ret (Rleb STILL_TIME_THRESHOLD (current_time - t))
  end.

(** [is_qr_centered], lines 71-72. *)
Definition is_qr_centered (total_distance_mm : R) : bool :=
  Rleb total_distance_mm MOVEMENT_THRESHOLD_MM.

(** [get_status_text], lines 74-77. *)
Definition get_status_text (is_still is_centered : bool) : string :=
  let movement_status := if is_still then "STILL" else "MOVING" in
  let centering_status := if is_centered then "Centered" else "Not Centered" in
  (movement_status ++ "; " ++ centering_status)%string.

(** [convert_to_display_units] and [get_unit_label], lines 87-93. *)
Definition convert_to_display_units (mm_value : R) : M R :=
  s <- get ;;
  ret (if String.eqb (measurement_unit s) "cm" then mm_value / 10.0
       else mm_value).

Definition get_unit_label : M string :=
  s <- get ;; ret (measurement_unit s).

(** ** Inputs of one pass of the main loop *)

(** A decoded marker as the loop sees it: payload, the integer centre
    [np.mean(...).astype(int)] and the width [np.linalg.norm(p0 - p1)]. *)
Record Detection : Type := mkDetection {
  data : string;
  center : pixel;
  pixel_width : R
}.

Definition ord (c : ascii) : Z := Z.of_nat (nat_of_ascii c).

(** [cv2.waitKey(1) & 0xFF]. *)
Definition key_code (wait_key : Z) : Z := Z.land wait_key 255.

(** The block under [if is_center_set:] once the target has been handled
    (lines 149-191; 201-243 in [qr_tracker.py]); the two scripts differ in
    [get_status_color] only. *)
Definition report_target (get_status_color : bool -> bool -> color)
  (current_center_pixel : pixel) (current_time : R) : M unit :=
  res <- calculate_displacement current_center_pixel ;;
  let '(total_dist_mm, dist_x_mm, dist_y_mm) := res in
  s <- get ;;
  ref <- subscript (center_pixel s) ;;
  emit (DrawLine ref current_center_pixel) ;;;
  when (Rltb 0 total_dist_mm) (emit DrawArrow) ;;;
  dist_x_display <- convert_to_display_units dist_x_mm ;;
  dist_y_display <- convert_to_display_units dist_y_mm ;;
  total_dist_display <- convert_to_display_units total_dist_mm ;;
  unit_label <- get_unit_label ;;
  emit (ShowAxes dist_x_display dist_y_display unit_label) ;;;
  emit (ShowTotal total_dist_display unit_label) ;;;
  is_still <- is_qr_still current_time ;;
  let is_centered := is_qr_centered total_dist_mm in
  emit (ShowStatus (get_status_text is_still is_centered)
          (get_status_color is_still is_centered)) ;;;
  s' <- get ;;
  let time_since_movement :=
    match last_movement_time s' with
    | None => 0
    | Some t => if Reqb t 0 then 0 else current_time - t
    end in
  emit (ShowStillTime time_since_movement).

(** Lines 140-143 (190-193): calibrate from a positive width, then feed the
    movement detector. *)
Definition calibrate (width : R) : M unit :=
  when (Rltb 0 width)
    (set_pixels_per_mm (Some (width / (KNOWN_QR_CODE_WIDTH_CM * 10)))).

Definition track_target (get_status_color : bool -> bool -> color)
  (d : Detection) (current_time : R) : M unit :=
  calibrate (pixel_width d) ;;;
  update_position_history (center d) current_time ;;;
  emit (DrawTarget (center d)) ;;;
  s <- get ;;
  when (is_center_set s)
    (report_target get_status_color (center d) current_time).

(** ** [motion_tracker.py]: manual, single-marker mode *)

Module Manual.

(** [get_status_color], lines 79-85. *)
Definition get_status_color (is_still is_centered : bool) : color :=
  if is_still && is_centered then (0, 255, 0)%Z
  else if is_still && negb is_centered then (0, 128, 255)%Z
  else (0, 0, 255)%Z.

(** One successfully read frame.  [detected] is [None] when
    [detectAndDecode] returns no bounding box. *)
Record Frame : Type := mkFrame {
  detected : option Detection;
  current_time : R;      (* time.time() of line 128 *)
  wait_key : Z;          (* cv2.waitKey(1) of line 202 *)
  key_time : R           (* time.time() of line 210 *)
}.

(** Line 133: [bbox is not None and qr_data == TARGET_QR_DATA]. *)
Definition found_target_qr (f : Frame) : option Detection :=
  match detected f with
  | None => None
  | Some d => if String.eqb (data d) TARGET_QR_DATA then Some d else None
  end.

(** Lines 193-198. *)
Definition show_reference : M unit :=
  s <- get ;;
  if negb (is_center_set s) then emit (ShowBanner "Press 'c' to set center")
  else
    emit (ShowBanner "Center Set. Tracking...") ;;;
    ref <- subscript (center_pixel s) ;;
    emit (DrawReference ref).

(** Lines 206-214: the [c] key. *)
Definition set_center (found : option Detection) (now : R) : M unit :=
  match found with
  | Some d =>
      set_center_pixel (Some (center d)) ;;;
      set_is_center_set true ;;;
      set_last_movement_time (Some now) ;;;
      set_position_history [] ;;;
      emit (PrintCenter "Center set at pixel coordinates: " (center d))
  | None =>
      emit (Print "Warning: Cannot set center. Target QR code not visible.")
  end.

(** Body of the [while True] loop, lines 128-214, for a frame that was
    read; the result says whether the loop goes on. *)
Definition loop_body (f : Frame) : M bool :=
  let found := found_target_qr f in
  match found with
  | Some d => track_target get_status_color d (current_time f)
  | None => ret tt
  end ;;;
  show_reference ;;;
  emit Present ;;;
  let key := key_code (wait_key f) in
  if (key =? ord "q")%Z then
    emit (Print "'q' pressed. Exiting.") ;;; ret false
  else if (key =? ord "c")%Z then
    set_center found (key_time f) ;;; ret true
  else ret true.

(** The loop over the frames the camera delivers; when it delivers no more,
    [cap.read()] fails and the loop ends (lines 123-126). *)
Fixpoint main_loop (frames : list Frame) : M unit :=
  match frames with
  | [] => emit (Print "Error: Can't receive frame. Exiting ...")
  | f :: rest =>
      continue <- loop_body f ;;
      if continue then main_loop rest else ret tt
  end.

End Manual.

(** ** [qr_tracker.py]: automatic, dual-marker mode *)

Module Dual.

(** [get_status_color], lines 82-88. *)
Definition get_status_color (is_still is_centered : bool) : color :=
  if is_still && is_centered then (0, 255, 0)%Z
  else if is_still && negb is_centered then (0, 255, 255)%Z
  else (0, 0, 255)%Z.

(** One successfully read frame.  [qr_codes] is what [detect_qr_codes]
    returns, each code paired with the reading [time.time()] gives while
    that code is handled (line 176). *)
Record Frame : Type := mkFrame {
  qr_codes : list (Detection * R);
  current_time : R;      (* time.time() of line 154 *)
  wait_key : Z           (* cv2.waitKey(1) of line 269 *)
}.

(** Lines 172-173: is the reference to be (re)acquired from this centre? *)
Definition must_acquire (c : pixel) : M bool :=
  s <- get ;;
  if negb (is_center_set s) then ret true
  else
    ref <- subscript (center_pixel s) ;;
    ret (Rltb 10 (pixel_distance c ref)).

(** Lines 169-183: the centre code. *)
Definition handle_center (d : Detection) (now : R) : M unit :=
  acquire <- must_acquire (center d) ;;
  when acquire
    (set_center_pixel (Some (center d)) ;;;
     set_is_center_set true ;;;
     set_last_movement_time (Some now) ;;;
     set_position_history [] ;;;
     emit (PrintCenter "Center automatically set at pixel coordinates: "
             (center d))) ;;;
  emit (DrawCenterCode (center d)).

(** The loop of lines 162-243 over the detected codes; the pair of flags is
    [(found_center_qr, found_target_qr)]. *)
Fixpoint for_qr_codes (current_time : R) (codes : list (Detection * R))
  (flags : bool * bool) : M (bool * bool) :=
  match codes with
  | [] => ret flags
  | (d, now) :: rest =>
      if String.eqb (data d) CENTER_QR_DATA then
        handle_center d now ;;;
        for_qr_codes current_time rest (true, snd flags)
      else if String.eqb (data d) TARGET_QR_DATA then
        track_target get_status_color d current_time ;;;
        for_qr_codes current_time rest (fst flags, true)
      else for_qr_codes current_time rest flags
  end.

(** Lines 246-254. *)
Definition show_reference (found_center_qr : bool) : M unit :=
  s <- get ;;
  if negb (is_center_set s) then
    if found_center_qr
    then emit (ShowBanner "Center QR detected - setting reference...")
    else emit (ShowBanner "Show CENTER QR code to set reference")
  else
    emit (ShowBanner "Center Set. Tracking...") ;;;
    ref <- subscript (center_pixel s) ;;
    emit (DrawReference ref).

(** Lines 257-265. *)
Definition show_codes (flags : bool * bool) : M unit :=
  let qr_status := (if fst flags then ["CENTER"] else [])
                   ++ (if snd flags then ["TARGET"] else []) in
  match qr_status with
  | [] => ret tt
  | _ :: _ => emit (ShowCodes qr_status)
  end.

(** Lines 273-278: the [r] key. *)
Definition reset_center : M unit :=
  set_center_pixel None ;;;
  set_is_center_set false ;;;
  set_position_history [] ;;;
  set_last_movement_time None ;;;
  emit (Print "Center reset. Show CENTER QR code to set new reference.").

(** Body of the [while True] loop, lines 154-278, for a frame that was
    read; the result says whether the loop goes on. *)
Definition loop_body (f : Frame) : M bool :=
  flags <- for_qr_codes (current_time f) (qr_codes f) (false, false) ;;
  show_reference (fst flags) ;;;
  show_codes flags ;;;
  emit Present ;;;
  let key := key_code (wait_key f) in
  if (key =? ord "q")%Z then
    emit (Print "'q' pressed. Exiting.") ;;; ret false
  else if (key =? ord "r")%Z then
    reset_center ;;; ret true
  else ret true.

Fixpoint main_loop (frames : list Frame) : M unit :=
  match frames with
  | [] => emit (Print "Error: Can't receive frame. Exiting ...")
  | f :: rest =>
      continue <- loop_body f ;;
      if continue then main_loop rest else ret tt
  end.

End Dual.

(** ** Invariants of the tracking context *)

(** A set reference has a pixel: [is_center_set] and [center_pixel] are
    assigned together everywhere. *)
Definition reference_consistent (s : Context) : Prop :=
  is_center_set s = true -> exists ref, center_pixel s = Some ref.

(** A stored calibration scale is strictly positive. *)
Definition scale_positive (s : Context) : Prop :=
  forall ppm, pixels_per_mm s = Some ppm -> 0 < ppm.

(** Timestamps grow from the front of the history to its back and none lies
    after [now]. *)
Fixpoint chronological (d : list (pixel * R)) (now : R) : Prop :=
  match d with
  | [] => True
  | sample :: rest =>
      snd sample <= now
      /\ Forall (fun later => snd sample <= snd later) rest
      /\ chronological rest now
  end.

(** The events that carry a displacement or status record of the target. *)
Definition target_record (e : Event) : bool :=
  match e with
  | DrawTarget _ | DrawLine _ _ | DrawArrow
  | ShowAxes _ _ _ | ShowTotal _ _ | ShowStatus _ _ | ShowStillTime _ => true
  | _ => false
  end.

(** ** Predicates and sample inputs of the statements *)

(** A context with the reference at the origin and two pixels per
    millimetre. *)
Definition sample_context : Context :=
  mkContext (Some (0, 0)%Z) true (Some 2) "mm" [] None.

(** A calibrated context holding one sample taken at time 0. *)
Definition moving_context : Context :=
  mkContext None false (Some 1) "mm" [((0, 0)%Z, 0)] None.

(** No event of the output is a record of the target. *)
Definition quiet (out : list Event) : Prop :=
  Forall (fun e => target_record e = false) out.

(** Manual frames on which [c] is pressed, without and with the target. *)
Definition empty_frame_c : Manual.Frame :=
  Manual.mkFrame None 7 (ord "c") 7.5.

Definition target_frame_c : Manual.Frame :=
  Manual.mkFrame (Some (mkDetection TARGET_QR_DATA (320, 240)%Z 200))
    7 (ord "c") 7.5.

(** The centre code asks for no (re)acquisition in context [s]: a reference
    is stored and the code lies within 10 pixels of it. *)
Definition near_reference (s : Context) (c : pixel) : Prop :=
  is_center_set s = true
  /\ exists ref, center_pixel s = Some ref /\ pixel_distance c ref <= 10.

(** The centre code asks for a (re)acquisition: no reference is stored, or
    the code lies more than 10 pixels from it. *)
Definition reacquires (s : Context) (c : pixel) : Prop :=
  is_center_set s = false
  \/ exists ref, center_pixel s = Some ref /\ 10 < pixel_distance c ref.

(** The frames of a run in which nothing asks for a new reference [ref]:
    no [r] key, and every centre code within 10 pixels of [ref]. *)
Definition steady_frame (ref : pixel) (f : Dual.Frame) : Prop :=
  key_code (Dual.wait_key f) <> ord "r"
  /\ Forall (fun c => data (fst c) = CENTER_QR_DATA ->
                      pixel_distance (center (fst c)) ref <= 10)
       (Dual.qr_codes f).

(** A dual-marker context with the reference at (100, 100), and frames
    showing only the centre code, 5.8 and 36 pixels away, with no key
    pressed ([cv2.waitKey] gives -1). *)
Definition stored_context : Context :=
  mkContext (Some (100, 100)%Z) true None "mm" [((90, 95)%Z, 1)] (Some 1).

Definition center_code (c : pixel) : Detection :=
  mkDetection CENTER_QR_DATA c 180.

Definition jitter_frame : Dual.Frame :=
  Dual.mkFrame [(center_code (105, 103)%Z, 2)] 2 (-1).

Definition jump_frame : Dual.Frame :=
  Dual.mkFrame [(center_code (120, 130)%Z, 3)] 3 (-1).

(** ** Marker geometry of [detect_qr_codes] *)

(** [astype(int)] on a float: the fraction is dropped, towards zero. *)
Definition astype_int (x : R) : Z :=
  if Rle_dec 0 x then Int_part x else (- Int_part (- x))%Z.

(** [np.linalg.norm(bbox[0] - bbox[1])]: length of the first edge. *)
Definition edge_norm (bbox : list (R * R)) : R :=
  let p0 := nth 0 bbox (0, 0) in
  let p1 := nth 1 bbox (0, 0) in
  sqrt ((fst p0 - fst p1) ^ 2 + (snd p0 - snd p1) ^ 2).

(** Line 107: [data and len(bbox) >= 4]. *)
Definition valid_code (data : string) (bbox : list (R * R)) : bool :=
  negb (String.eqb data "") && (4 <=? length bbox)%nat.

Section DetectQRCodes.

(** [np.mean(bbox, axis=0)] as numpy returns it.  The corners are float32
    and numpy takes their mean in float32; the integer centre is cut from
    that rounded value, so the mean is taken as given and not recomputed
    over the reals. *)
Variable np_mean : list (R * R) -> R * R.

(** [detect_qr_codes], lines 98-117 of [qr_tracker.py], on what
    [detectAndDecodeMulti] returns.  The [bbox] entry of each result is
    used for drawing only and is not kept. *)
Definition detect_qr_codes (success : bool) (decoded_info : list string)
  (points : list (list (R * R))) : list Detection :=
  if success && negb (length decoded_info =? 0)%nat then
    flat_map
      (fun entry : string * list (R * R) =>
         let (data, bbox) := entry in
         if valid_code data bbox then
           let m := np_mean bbox in
           [mkDetection data (astype_int (fst m), astype_int (snd m))
              (edge_norm bbox)]
         else [])
      (combine decoded_info points)
  else [].

End DetectQRCodes.

(** ** Further predicates of the statements *)

(** The history respects the deque bound, and a non-empty history comes
    with a recorded movement time. *)
Definition history_ok (s : Context) : Prop :=
  (length (position_history s) <= history_maxlen)%nat
  /\ (position_history s <> [] -> last_movement_time s <> None).

Definition context_ok (s : Context) : Prop :=
  reference_consistent s /\ scale_positive s /\ history_ok s.

(** Every stored sample lies at pixel [p]. *)
Definition stationary (p : pixel) (d : list (pixel * R)) : Prop :=
  Forall (fun sample => fst sample = p) d.

(** The manual frame shows the target with its centre at [p]. *)
Definition shows_target_at (p : pixel) (f : Manual.Frame) : Prop :=
  exists d, Manual.found_target_qr f = Some d /\ center d = p.

(** The same context under another display unit. *)
Definition with_unit (u : string) (s : Context) : Context :=
  mkContext (center_pixel s) (is_center_set s) (pixels_per_mm s) u
    (position_history s) (last_movement_time s).

(** A readout in millimetres turned into one in centimetres. *)
Definition to_cm (e : Event) : Event :=
  match e with
  | ShowAxes x y _ => ShowAxes (x / 10.0) (y / 10.0) "cm"
  | ShowTotal total _ => ShowTotal (total / 10.0) "cm"
  | _ => e
  end.

(** Every stored sample is at most 3.0 old at time [now]. *)
Definition fresh (now : R) (d : list (pixel * R)) : Prop :=
  Forall (fun sample => now - snd sample <= 3.0) d.

(** The readings start no earlier than [t] and never decrease. *)
Fixpoint nondecreasing_from (t : R) (times : list R) : Prop :=
  match times with
  | [] => True
  | t' :: rest => t <= t' /\ nondecreasing_from t' rest
  end.

(** A manual frame at time [t] showing the target at (320, 240), no key
    pressed. *)
Definition still_frame (t : R) : Manual.Frame :=
  Manual.mkFrame (Some (mkDetection TARGET_QR_DATA (320, 240)%Z 200))
    t (-1) t.

(** A manual frame without the target on which [q] is pressed. *)
Definition quit_frame : Manual.Frame :=
  Manual.mkFrame None 9 (ord "q") 9.

(** A dual-marker frame showing the centre code on which [r] is pressed. *)
Definition reset_frame : Dual.Frame :=
  Dual.mkFrame [(center_code (105, 103)%Z, 4)] 4 (ord "r").


(** A mean as numpy may return it for [square_box]. *)
Definition sample_mean (bbox : list (R * R)) : R * R := (20, 20.25).

(** The four corners of a detected box. *)
Definition square_box : list (R * R) :=
  [(10, 10); (30, 10); (30, 30.5); (10, 30.5)].

(** ** Proof support *)

#[local] Arguments Z.pow : simpl never.
#[local] Arguments pow : simpl never.

Ltac unfold_monad :=
  unfold bind, ret, get, put, emit, raise, when, subscript,
    set_center_pixel, set_is_center_set, set_pixels_per_mm,
    set_position_history, set_last_movement_time in *.

Lemma Rltb_true (x y : R) : Rltb x y = true <-> x < y.
Proof. unfold Rltb. destruct (Rlt_dec x y); split; intros; try easy. Qed.

Lemma Rltb_false (x y : R) : Rltb x y = false <-> y <= x.
Proof.
  unfold Rltb. destruct (Rlt_dec x y); split; intros; try easy; lra.
Qed.

Lemma Rleb_true (x y : R) : Rleb x y = true <-> x <= y.
Proof. unfold Rleb. destruct (Rle_dec x y); split; intros; try easy. Qed.

Lemma Rleb_false (x y : R) : Rleb x y = false <-> y < x.
Proof.
  unfold Rleb. destruct (Rle_dec x y); split; intros; try easy; lra.
Qed.

Lemma Reqb_true (x y : R) : Reqb x y = true <-> x = y.
Proof. unfold Reqb. destruct (Req_dec_T x y); split; intros; try easy. Qed.

Lemma Reqb_false (x y : R) : Reqb x y = false <-> x <> y.
Proof. unfold Reqb. destruct (Req_dec_T x y); split; intros; try easy. Qed.

Lemma known_width_mm : KNOWN_QR_CODE_WIDTH_CM * 10 = 38.1.
Proof. unfold KNOWN_QR_CODE_WIDTH_CM, TARGET_WIDTH_INCHES. lra. Qed.

Lemma scaled_norm (a b p : R) :
  0 < p -> sqrt (a ^ 2 + b ^ 2) / p = sqrt ((a / p) ^ 2 + (b / p) ^ 2).
Proof.
  intros Hp.
  replace ((a / p) ^ 2 + (b / p) ^ 2) with ((a ^ 2 + b ^ 2) / (p * p))
    by (field; lra).
  rewrite sqrt_div_alt by nra.
  rewrite sqrt_square by lra.
  reflexivity.
Qed.

Lemma IZR_sum_squares (a b : Z) :
  IZR (a ^ 2 + b ^ 2) = IZR a ^ 2 + IZR b ^ 2.
Proof.
  rewrite plus_IZR. change 2%Z with (Z.of_nat 2).
  rewrite <- !pow_IZR. reflexivity.
Qed.

(** ** The displacement calculator *)

(** C1. [calculate_displacement] yields [(0, 0, 0)] when the reference is
    unset, the scale is unset or the scale is zero; otherwise, in a context
    whose stored scale is positive (as every stored scale is), it yields
    [(sqrt (dx² + dy²), dx, dy)] for [dx = (curX - refX) / ppm] and
    [dy = (curY - refY) / ppm].  In either case the context is returned as
    it was and nothing is output. *)
Theorem calculate_displacement_spec (s : Context) (cur : pixel) :
  (is_center_set s = false \/ pixels_per_mm s = None
   \/ pixels_per_mm s = Some 0 ->
   calculate_displacement cur s = Done (0, 0, 0) s [])
  /\ (scale_positive s ->
      forall ref ppm,
        is_center_set s = true ->
        center_pixel s = Some ref ->
        pixels_per_mm s = Some ppm ->
        let dx := (IZR (fst cur) - IZR (fst ref)) / ppm in
        let dy := (IZR (snd cur) - IZR (snd ref)) / ppm in
        calculate_displacement cur s
        = Done (sqrt (dx ^ 2 + dy ^ 2), dx, dy) s []).
Proof.
  split.
  - intros H. unfold calculate_displacement. unfold_monad.
    destruct (is_center_set s); simpl; [|reflexivity].
    destruct H as [H | [H | H]]; [discriminate | |]; rewrite H; simpl.
    + reflexivity.
    + replace (Reqb 0 0) with true by (symmetry; apply Reqb_true; reflexivity).
      reflexivity.
  - intros Hscale ref ppm Hset Href Hppm dx dy.
    assert (Hpos : 0 < ppm) by (apply Hscale; exact Hppm).
    unfold calculate_displacement. unfold_monad.
    rewrite Hset, Hppm, Href. simpl.
    replace (Reqb ppm 0) with false by (symmetry; apply Reqb_false; lra).
    simpl. rewrite IZR_sum_squares, scaled_norm by assumption.
    rewrite !minus_IZR. reflexivity.
Qed.

Lemma scale_positive_sample : scale_positive sample_context.
Proof. intros ppm H. injection H as <-. lra. Qed.

Lemma calculate_displacement_spec_witness :
  scale_positive sample_context
  /\ is_center_set sample_context = true
  /\ center_pixel sample_context = Some (0, 0)%Z
  /\ pixels_per_mm sample_context = Some 2
  /\ calculate_displacement (6, 8)%Z sample_context
     = Done (sqrt (((IZR 6 - IZR 0) / 2) ^ 2 + ((IZR 8 - IZR 0) / 2) ^ 2),
             (IZR 6 - IZR 0) / 2, (IZR 8 - IZR 0) / 2) sample_context [].
Proof.
  split; [exact scale_positive_sample|]. repeat split.
  apply (proj2 (calculate_displacement_spec sample_context (6, 8)%Z)
           scale_positive_sample (0, 0)%Z 2); reflexivity.
Defined.

(** ** The stability classifier *)

Lemma is_qr_still_run (s : Context) (now : R) :
  is_qr_still now s
  = Done match last_movement_time s with
         | None => false
         | Some t => Rleb STILL_TIME_THRESHOLD (now - t)
         end s [].
Proof.
  unfold is_qr_still. unfold_monad.
  destruct (last_movement_time s); reflexivity.
Qed.

(** C3. The motion axis is STILL exactly when a last movement is recorded
    and lies at least [STILL_TIME_THRESHOLD = 1.0] back (so it is MOVING
    with none recorded); the alignment axis is CENTERED exactly when the
    total displacement is at most 2.5; the status text carries both. *)
Theorem stability_axes (s : Context) (now total : R) :
  (exists still,
      is_qr_still now s = Done still s []
      /\ (still = true <->
          exists t, last_movement_time s = Some t /\ now - t >= 1.0)
      /\ match last_movement_time s with
         | None => still = false
         | Some _ => True
         end)
  /\ (is_qr_centered total = true <-> total <= 2.5)
  /\ get_status_text true true = "STILL; Centered"
  /\ get_status_text true false = "STILL; Not Centered"
  /\ get_status_text false true = "MOVING; Centered"
  /\ get_status_text false false = "MOVING; Not Centered".
Proof.
  split; [|split; [|repeat split]].
  - eexists. split; [apply is_qr_still_run|].
    destruct (last_movement_time s) as [t|]; split.
    + unfold STILL_TIME_THRESHOLD. rewrite Rleb_true. split.
      * intros H. exists t. split; [reflexivity | lra].
      * intros [t' [Ht' H]]. injection Ht' as <-. lra.
    + exact I.
    + split; [discriminate|]. intros [t [Ht _]]. discriminate.
    + reflexivity.
  - unfold is_qr_centered, MOVEMENT_THRESHOLD_MM. apply Rleb_true.
Qed.

(** ** The calibrator *)

Lemma calibrate_run (s : Context) (w : R) :
  calibrate w s
  = Done tt (if Rltb 0 w
             then mkContext (center_pixel s) (is_center_set s)
                    (Some (w / (KNOWN_QR_CODE_WIDTH_CM * 10)))
                    (measurement_unit s) (position_history s)
                    (last_movement_time s)
             else s) [].
Proof.
  unfold calibrate. unfold_monad. destruct (Rltb 0 w); reflexivity.
Qed.

Lemma calibrate_scale_positive (s : Context) (w : R) :
  scale_positive s ->
  exists s', calibrate w s = Done tt s' [] /\ scale_positive s'.
Proof.
  intros Hs. rewrite calibrate_run. eexists. split; [reflexivity|].
  destruct (Rltb 0 w) eqn:Hw; [|assumption].
  apply Rltb_true in Hw. intros ppm Hp. simpl in Hp. injection Hp as <-.
  rewrite known_width_mm. apply Rdiv_lt_0_compat; lra.
Qed.

(** ** The position history *)

Lemma deque_append_last {A} (n : nat) (d : list A) (x : A) :
  exists older, deque_append n d x = older ++ [x].
Proof.
  unfold deque_append. destruct (length d <? n)%nat; eexists; reflexivity.
Qed.

Lemma evict_old_keeps_new (now : R) (older : list (pixel * R)) (p : pixel) :
  exists kept, evict_old now (older ++ [(p, now)]) = kept ++ [(p, now)].
Proof.
  induction older as [|smp older IH]; simpl.
  - replace (Rltb 3.0 (now - now)) with false
      by (symmetry; apply Rltb_false; lra).
    exists []. reflexivity.
  - destruct (Rltb 3.0 (now - snd smp)).
    + exact IH.
    + exists (smp :: older). reflexivity.
Qed.

(** What [update_position_history] leaves alone, and that it returns. *)
Lemma update_position_history_run (s : Context) (cur : pixel) (now : R) :
  exists s',
    update_position_history cur now s = Done tt s' []
    /\ center_pixel s' = center_pixel s
    /\ is_center_set s' = is_center_set s
    /\ pixels_per_mm s' = pixels_per_mm s
    /\ measurement_unit s' = measurement_unit s
    /\ (exists kept, position_history s' = kept ++ [(cur, now)])
    /\ (last_movement_time s' = last_movement_time s
        \/ last_movement_time s' = Some now).
Proof.
  unfold update_position_history. unfold_monad.
  destruct (length (position_history s) =? 0)%nat eqn:Hlen; simpl.
  - eexists. repeat split; simpl; try reflexivity.
    + apply deque_append_last.
    + right. reflexivity.
  - destruct (deque_append_last history_maxlen (position_history s) (cur, now))
      as [older Holder].
    destruct (evict_old_keeps_new now older cur) as [kept Hkept].
    destruct (recent_positions (position_history s) now) as [|r recent];
      [|destruct (pixels_per_mm s) as [ppm|] eqn:Hppm;
        [destruct (negb (Reqb ppm 0) && Rltb 0 ppm);
         [destruct (Rltb MOVEMENT_THRESHOLD_MM _)|]|]];
      simpl; eexists; repeat split; simpl; try reflexivity;
      try (rewrite Holder; exists kept; exact Hkept);
      try (left; reflexivity); try (right; reflexivity);
      try (symmetry; assumption); try assumption.
Qed.

Lemma update_on_empty (s : Context) (cur : pixel) (now : R) :
  position_history s = [] ->
  update_position_history cur now s
  = Done tt (mkContext (center_pixel s) (is_center_set s) (pixels_per_mm s)
               (measurement_unit s) [(cur, now)] (Some now)) [].
Proof.
  intros Hempty. unfold update_position_history. unfold_monad.
  rewrite Hempty. simpl. reflexivity.
Qed.

Lemma update_on_nonempty (s : Context) (cur : pixel) (now : R) :
  position_history s <> [] ->
  exists s',
    update_position_history cur now s = Done tt s' []
    /\ position_history s'
       = evict_old now
           (deque_append history_maxlen (position_history s) (cur, now)).
Proof.
  intros Hne. unfold update_position_history. unfold_monad.
  destruct (position_history s) as [|smp d] eqn:Hd; [congruence|].
  simpl length. simpl Nat.eqb. cbv iota.
  destruct (recent_positions (smp :: d) now) as [|r recent];
    [|destruct (pixels_per_mm s) as [ppm|];
      [destruct (negb (Reqb ppm 0) && Rltb 0 ppm);
       [destruct (Rltb MOVEMENT_THRESHOLD_MM _)|]|]];
    simpl; eexists; (split; [reflexivity|]); simpl; rewrite ?Hd; reflexivity.
Qed.

(** C9. On an empty history the sample is recorded and
    [last_movement_time] becomes [now]; from there the motion axis stays
    MOVING at every time less than [STILL_TIME_THRESHOLD] after [now], and
    is STILL once that much has passed with [last_movement_time] untouched. *)
Theorem first_sample_starts_moving (s : Context) (cur : pixel) (now : R) :
  position_history s = [] ->
  let s' := mkContext (center_pixel s) (is_center_set s) (pixels_per_mm s)
              (measurement_unit s) [(cur, now)] (Some now) in
  update_position_history cur now s = Done tt s' []
  /\ (forall t, t - now < 1.0 -> is_qr_still t s' = Done false s' [])
  /\ (forall t, 1.0 <= t - now -> is_qr_still t s' = Done true s' []).
Proof.
  intros Hempty s'. split; [|split].
  - apply update_on_empty. exact Hempty.
  - intros t Ht. rewrite is_qr_still_run. simpl.
    replace (Rleb STILL_TIME_THRESHOLD (t - now)) with false; [reflexivity|].
    symmetry. apply Rleb_false. unfold STILL_TIME_THRESHOLD. lra.
  - intros t Ht. rewrite is_qr_still_run. simpl.
    replace (Rleb STILL_TIME_THRESHOLD (t - now)) with true; [reflexivity|].
    symmetry. apply Rleb_true. unfold STILL_TIME_THRESHOLD. lra.
Qed.

Lemma first_sample_starts_moving_witness :
  position_history (initial_context "mm") = []
  /\ update_position_history (320, 240)%Z 5 (initial_context "mm")
     = Done tt (mkContext None false None "mm" [((320, 240)%Z, 5)] (Some 5))
         [].
Proof.
  split; [reflexivity|].
  apply (first_sample_starts_moving (initial_context "mm") (320, 240)%Z 5).
  reflexivity.
Defined.

Ltac real_tests :=
  repeat match goal with
    | |- context [Rltb ?a ?b] =>
        first [ replace (Rltb a b) with true
                  by (symmetry; apply Rltb_true; lra)
              | replace (Rltb a b) with false
                  by (symmetry; apply Rltb_false; lra) ]
    | |- context [Rleb ?a ?b] =>
        first [ replace (Rleb a b) with true
                  by (symmetry; apply Rleb_true; lra)
              | replace (Rleb a b) with false
                  by (symmetry; apply Rleb_false; lra) ]
    | |- context [Reqb ?a ?b] =>
        first [ replace (Reqb a b) with true
                  by (symmetry; apply Reqb_true; lra)
              | replace (Reqb a b) with false
                  by (symmetry; apply Reqb_false; lra) ]
    end.

Lemma recent_positions_spec (d : list (pixel * R)) (now : R) (p : pixel) :
  In p (recent_positions d now)
  <-> exists t, In (p, t) d /\ now - t <= 0.5.
Proof.
  unfold recent_positions. rewrite in_map_iff. split.
  - intros [[q t] [Hq Hin]]. simpl in Hq. subst q.
    apply filter_In in Hin. destruct Hin as [Hin Hage]. simpl in Hage.
    exists t. split; [assumption | apply Rleb_true; assumption].
  - intros [t [Hin Hage]]. exists (p, t). split; [reflexivity|].
    apply filter_In. split; [assumption | apply Rleb_true; assumption].
Qed.

Lemma sum_Z_cons (x : Z) (l : list Z) : sum_Z (x :: l) = (x + sum_Z l)%Z.
Proof.
  unfold sum_Z. simpl.
  assert (H : forall l a b, fold_left Z.add l (a + b)%Z
                            = (a + fold_left Z.add l b)%Z).
  { clear. induction l as [|y l IH]; intros a b; simpl; [reflexivity|].
    rewrite <- Z.add_assoc. apply IH. }
  replace x with (x + 0)%Z at 1 by lia. apply H.
Qed.








(** *** Age of the retained samples *)

Lemma chronological_later (d : list (pixel * R)) (now now' : R) :
  now <= now' -> chronological d now -> chronological d now'.
Proof.
  intros Hle. induction d as [|smp d IH]; simpl; [trivial|].
  intros [H1 [H2 H3]]. repeat split; [lra | assumption | auto].
Qed.

Lemma chronological_snoc (d : list (pixel * R)) (p : pixel) (now : R) :
  chronological d now -> chronological (d ++ [(p, now)]) now.
Proof.
  induction d as [|smp d IH]; simpl.
  - intros _. repeat split; [lra | constructor].
  - intros [H1 [H2 H3]]. repeat split; [assumption | | auto].
    apply Forall_app. split; [assumption|].
    constructor; [simpl; lra | constructor].
Qed.

Lemma chronological_tl (d : list (pixel * R)) (now : R) :
  chronological d now -> chronological (tl d) now.
Proof. destruct d; simpl; [trivial | tauto]. Qed.

Lemma chronological_append (d : list (pixel * R)) (p : pixel) (now : R) :
  chronological d now ->
  chronological (deque_append history_maxlen d (p, now)) now.
Proof.
  intros H. unfold deque_append.
  destruct (length d <? history_maxlen)%nat;
    apply chronological_snoc; [|apply chronological_tl]; assumption.
Qed.

Lemma evict_old_chronological (d : list (pixel * R)) (now : R) :
  chronological d now ->
  chronological (evict_old now d) now
  /\ Forall (fun sample => now - snd sample <= 3.0) (evict_old now d).
Proof.
  induction d as [|smp d IH]; simpl.
  - intros _. split; [exact I | constructor].
  - intros [H1 [H2 H3]].
    destruct (Rltb 3.0 (now - snd smp)) eqn:Hage; [auto|].
    apply Rltb_false in Hage. split; [simpl; tauto|].
    constructor; [assumption|].
    eapply Forall_impl; [|exact H2]. simpl. intros later Hlater. lra.
Qed.

(** C6, as the code has it.  When the stored timestamps do not decrease
    from the oldest sample to the newest and none lies after [now], every
    sample left by [update_position_history] is at most 3.0 old, and the
    history is again so ordered. *)
Theorem history_age_bound (s : Context) (cur : pixel) (now : R) :
  chronological (position_history s) now ->
  exists s',
    update_position_history cur now s = Done tt s' []
    /\ Forall (fun sample => now - snd sample <= 3.0) (position_history s')
    /\ chronological (position_history s') now.
Proof.
  intros Hchron.
  destruct (position_history s) as [|smp d] eqn:Hd.
  - eexists. split; [apply update_on_empty; exact Hd|]. simpl. split.
    + constructor; [simpl; lra | constructor].
    + repeat split; [lra | constructor].
  - assert (Hne : position_history s <> []) by congruence.
    destruct (update_on_nonempty s cur now Hne) as [s' [Hrun Hhist]].
    exists s'. split; [exact Hrun|]. rewrite Hhist, Hd.
    apply and_comm, evict_old_chronological, chronological_append.
    exact Hchron.
Qed.

Lemma history_age_bound_witness :
  chronological (position_history moving_context) 2
  /\ exists s',
      update_position_history (3, 4)%Z 2 moving_context = Done tt s' []
      /\ Forall (fun sample => 2 - snd sample <= 3.0) (position_history s').
Proof.
  assert (H : chronological (position_history moving_context) 2).
  { simpl. repeat split; [lra | constructor]. }
  split; [exact H|].
  destruct (history_age_bound moving_context (3, 4)%Z 2 H)
    as [s' [Hrun [Hage _]]].
  exists s'. split; assumption.
Defined.

(** C6 as stated fails when the clock steps back: after updates at times
    10, 8 and 12 the sample of time 8 is still stored at time 12, behind a
    front sample that is young enough to stop the eviction. *)
Lemma history_age_counterexample :
  exists s1 s2 s3,
    update_position_history (0, 0)%Z 10 (initial_context "mm") = Done tt s1 []
    /\ update_position_history (0, 0)%Z 8 s1 = Done tt s2 []
    /\ update_position_history (0, 0)%Z 12 s2 = Done tt s3 []
    /\ position_history s3
       = [((0, 0)%Z, 10); ((0, 0)%Z, 8); ((0, 0)%Z, 12)]
    /\ ~ Forall (fun sample => 12 - snd sample <= 3.0) (position_history s3).
Proof.
  eexists. eexists. eexists.
  split; [apply update_on_empty; reflexivity|].
  split.
  { unfold update_position_history, recent_positions. unfold_monad. simpl.
    real_tests. simpl. real_tests. reflexivity. }
  split.
  { unfold update_position_history, recent_positions. unfold_monad. simpl.
    real_tests. simpl. real_tests. reflexivity. }
  simpl. split; [reflexivity|].
  intros H. inversion H as [|? ? _ H1]; subst.
  inversion H1 as [|? ? H8 _]; subst. simpl in H8. lra.
Qed.

(** ** Running one frame *)

Lemma bind_done {A B} (m : M A) (k : A -> M B) (s s1 s2 : Context)
  (a : A) (b : B) (o1 o2 : list Event) :
  m s = Done a s1 o1 -> k a s1 = Done b s2 o2 ->
  bind m k s = Done b s2 (o1 ++ o2).
Proof. intros H1 H2. unfold bind. rewrite H1, H2. reflexivity. Qed.

Lemma calculate_displacement_returns (s : Context) (cur : pixel) :
  reference_consistent s ->
  exists res, calculate_displacement cur s = Done res s [].
Proof.
  intros Hc. unfold calculate_displacement. unfold_monad.
  destruct (is_center_set s) eqn:Hset; simpl; [|eexists; reflexivity].
  destruct (Hc Hset) as [ref Href]. rewrite Href.
  destruct (pixels_per_mm s) as [ppm|]; [|eexists; reflexivity].
  destruct (Reqb ppm 0); eexists; reflexivity.
Qed.

Lemma report_target_run (col : bool -> bool -> color) (s : Context)
  (cur : pixel) (now : R) :
  reference_consistent s -> is_center_set s = true ->
  exists out, report_target col cur now s = Done tt s out.
Proof.
  intros Hc Hset. destruct (Hc Hset) as [ref Href].
  destruct (calculate_displacement_returns s cur Hc) as [[[total dx] dy] Hcalc].
  unfold report_target, convert_to_display_units, get_unit_label, is_qr_still.
  unfold bind at 1. rewrite Hcalc.
  unfold_monad. rewrite Href. simpl.
  destruct (Rltb 0 total); simpl;
    destruct (last_movement_time s); simpl; eexists; reflexivity.
Qed.

Lemma track_target_run (col : bool -> bool -> color) (s : Context)
  (d : Detection) (now : R) :
  reference_consistent s ->
  exists s1 s' out,
    calibrate (pixel_width d) s = Done tt s1 []
    /\ update_position_history (center d) now s1 = Done tt s' []
    /\ track_target col d now s = Done tt s' out.
Proof.
  intros Hc.
  destruct (update_position_history_run
              (if Rltb 0 (pixel_width d)
               then mkContext (center_pixel s) (is_center_set s)
                      (Some (pixel_width d / (KNOWN_QR_CODE_WIDTH_CM * 10)))
                      (measurement_unit s) (position_history s)
                      (last_movement_time s)
               else s) (center d) now)
    as [s' [Hup [Hcp [Hset [_ _]]]]].
  assert (Hcp' : center_pixel s' = center_pixel s)
    by (rewrite Hcp; destruct (Rltb 0 (pixel_width d)); reflexivity).
  assert (Hset' : is_center_set s' = is_center_set s)
    by (rewrite Hset; destruct (Rltb 0 (pixel_width d)); reflexivity).
  assert (Hc' : reference_consistent s').
  { unfold reference_consistent. rewrite Hcp', Hset'. exact Hc. }
  eexists. exists s'.
  assert (Hrep : exists out,
             when (is_center_set s')
               (report_target col (center d) now) s' = Done tt s' out).
  { unfold when. destruct (is_center_set s') eqn:E.
    - apply report_target_run; assumption.
    - eexists. reflexivity. }
  destruct Hrep as [out Hrep].
  eexists. split; [apply calibrate_run|]. split; [exact Hup|].
  unfold track_target.
  eapply bind_done; [apply calibrate_run|].
  eapply bind_done; [exact Hup|].
  eapply bind_done; [reflexivity|].
  eapply bind_done; [reflexivity|]. exact Hrep.
Qed.

(** What handling the target leaves alone. *)
Lemma track_target_frame (col : bool -> bool -> color) (s : Context)
  (d : Detection) (now : R) :
  reference_consistent s ->
  exists s' out,
    track_target col d now s = Done tt s' out
    /\ center_pixel s' = center_pixel s
    /\ is_center_set s' = is_center_set s
    /\ measurement_unit s' = measurement_unit s
    /\ pixels_per_mm s'
       = (if Rltb 0 (pixel_width d)
          then Some (pixel_width d / (KNOWN_QR_CODE_WIDTH_CM * 10))
          else pixels_per_mm s).
Proof.
  intros Hc.
  destruct (track_target_run col s d now Hc)
    as [s1 [s' [out [Hcal [Hup Hrun]]]]].
  exists s', out. split; [exact Hrun|].
  rewrite calibrate_run in Hcal. injection Hcal as <-.
  destruct (update_position_history_run
              (if Rltb 0 (pixel_width d)
               then mkContext (center_pixel s) (is_center_set s)
                      (Some (pixel_width d / (KNOWN_QR_CODE_WIDTH_CM * 10)))
                      (measurement_unit s) (position_history s)
                      (last_movement_time s)
               else s) (center d) now)
    as [s2 [Hup2 [Hcp [Hset [Hppm [Hunit _]]]]]].
  rewrite Hup in Hup2. injection Hup2 as <-.
  rewrite Hcp, Hset, Hppm, Hunit.
  destruct (Rltb 0 (pixel_width d)); repeat split; reflexivity.
Qed.

Lemma track_target_invariants (col : bool -> bool -> color) (s : Context)
  (d : Detection) (now : R) :
  reference_consistent s -> scale_positive s ->
  exists s' out,
    track_target col d now s = Done tt s' out
    /\ reference_consistent s' /\ scale_positive s'.
Proof.
  intros Hc Hs.
  destruct (track_target_frame col s d now Hc)
    as [s' [out [Hrun [Hcp [Hset [_ Hppm]]]]]].
  exists s', out. split; [exact Hrun|]. split.
  - unfold reference_consistent. rewrite Hcp, Hset. exact Hc.
  - intros ppm Hp. rewrite Hppm in Hp.
    destruct (Rltb 0 (pixel_width d)) eqn:Hw; [|auto].
    apply Rltb_true in Hw. injection Hp as <-.
    rewrite known_width_mm. apply Rdiv_lt_0_compat; lra.
Qed.

(** ** Manual mode *)

Lemma manual_show_reference_run (s : Context) :
  reference_consistent s ->
  exists out, Manual.show_reference s = Done tt s out /\ quiet out.
Proof.
  intros Hc. unfold Manual.show_reference. unfold_monad.
  destruct (is_center_set s) eqn:Hset; simpl.
  - destruct (Hc Hset) as [ref Href]. rewrite Href. simpl.
    eexists. split; [reflexivity|]. repeat constructor.
  - eexists. split; [reflexivity|]. repeat constructor.
Qed.

(** The part of the loop body after the target has been handled. *)
Lemma manual_keys_run (f : Manual.Frame) (s : Context) :
  reference_consistent s ->
  exists s' out,
    (Manual.show_reference ;;;
     emit Present ;;;
     (let key := key_code (Manual.wait_key f) in
      if (key =? ord "q")%Z then
        emit (Print "'q' pressed. Exiting.") ;;; ret false
      else if (key =? ord "c")%Z then
        Manual.set_center (Manual.found_target_qr f) (Manual.key_time f) ;;;
        ret true
      else ret true)) s
    = Done (negb (key_code (Manual.wait_key f) =? ord "q")%Z) s' out
    /\ quiet out
    /\ pixels_per_mm s' = pixels_per_mm s
    /\ measurement_unit s' = measurement_unit s
    /\ match Manual.found_target_qr f with
       | Some d =>
           if (key_code (Manual.wait_key f) =? ord "c")%Z
           then center_pixel s' = Some (center d)
                /\ is_center_set s' = true
                /\ position_history s' = []
                /\ last_movement_time s' = Some (Manual.key_time f)
           else s' = s
       | None =>
           s' = s
           /\ ((key_code (Manual.wait_key f) =? ord "c")%Z = true ->
               In (Print
                     "Warning: Cannot set center. Target QR code not visible.")
                  out)
       end.
Proof.
  intros Hc.
  destruct (manual_show_reference_run s Hc) as [out1 [Hshow Hq1]].
  destruct (key_code (Manual.wait_key f) =? ord "q")%Z eqn:Hkq.
  - exists s. eexists. split.
    { eapply bind_done; [exact Hshow|].
      eapply bind_done; [reflexivity|]. cbv zeta. rewrite Hkq. reflexivity. }
    split; [apply Forall_app; split; [exact Hq1 | repeat constructor]|].
    assert (Hkc : (key_code (Manual.wait_key f) =? ord "c")%Z = false).
    { apply Z.eqb_eq in Hkq. rewrite Hkq. reflexivity. }
    rewrite Hkc. destruct (Manual.found_target_qr f);
      repeat split; try reflexivity; discriminate.
  - destruct (key_code (Manual.wait_key f) =? ord "c")%Z eqn:Hkc.
    + destruct (Manual.found_target_qr f) as [d|] eqn:Hfound.
      * eexists. eexists. split.
        { eapply bind_done; [exact Hshow|].
          eapply bind_done; [reflexivity|]. cbv zeta. rewrite Hkq, Hkc.
          unfold Manual.set_center. unfold_monad. simpl. reflexivity. }
        split; [apply Forall_app; split; [exact Hq1 | repeat constructor]|].
        simpl. repeat split; reflexivity.
      * exists s. eexists. split.
        { eapply bind_done; [exact Hshow|].
          eapply bind_done; [reflexivity|]. cbv zeta. rewrite Hkq, Hkc.
          unfold Manual.set_center. unfold_monad. simpl. reflexivity. }
        split; [apply Forall_app; split; [exact Hq1 | repeat constructor]|].
        repeat split; try reflexivity.
        intros _. apply in_or_app. right. simpl. tauto.
    + exists s. eexists. split.
      { eapply bind_done; [exact Hshow|].
        eapply bind_done; [reflexivity|]. cbv zeta. rewrite Hkq, Hkc.
        reflexivity. }
      split; [apply Forall_app; split; [exact Hq1 | repeat constructor]|].
      destruct (Manual.found_target_qr f);
        repeat split; try reflexivity; discriminate.
Qed.

Lemma manual_loop_body_absent (f : Manual.Frame) (s : Context) :
  reference_consistent s ->
  Manual.found_target_qr f = None ->
  exists out,
    Manual.loop_body f s
    = Done (negb (key_code (Manual.wait_key f) =? ord "q")%Z) s out
    /\ quiet out
    /\ ((key_code (Manual.wait_key f) =? ord "c")%Z = true ->
        In (Print "Warning: Cannot set center. Target QR code not visible.")
           out).
Proof.
  intros Hc Hfound.
  destruct (manual_keys_run f s Hc) as [s' [out [Hrun [Hq [_ [_ Hkey]]]]]].
  rewrite Hfound in Hkey. destruct Hkey as [-> Hwarn].
  exists out. split; [|split; assumption].
  unfold Manual.loop_body. cbv zeta. rewrite Hfound.
  change out with ([] ++ out).
  eapply bind_done; [reflexivity|]. rewrite Hfound in Hrun. exact Hrun.
Qed.

Lemma manual_loop_body_present (f : Manual.Frame) (s : Context)
  (d : Detection) :
  reference_consistent s ->
  Manual.found_target_qr f = Some d ->
  exists s1 out1 s' out,
    track_target Manual.get_status_color d (Manual.current_time f) s
    = Done tt s1 out1
    /\ Manual.loop_body f s
       = Done (negb (key_code (Manual.wait_key f) =? ord "q")%Z) s' out
    /\ pixels_per_mm s' = pixels_per_mm s1
    /\ measurement_unit s' = measurement_unit s1
    /\ if (key_code (Manual.wait_key f) =? ord "c")%Z
       then center_pixel s' = Some (center d)
            /\ is_center_set s' = true
            /\ position_history s' = []
            /\ last_movement_time s' = Some (Manual.key_time f)
       else s' = s1.
Proof.
  intros Hc Hfound.
  destruct (track_target_frame Manual.get_status_color s d
              (Manual.current_time f) Hc)
    as [s1 [out1 [Htrack [Hcp [Hset _]]]]].
  assert (Hc1 : reference_consistent s1).
  { unfold reference_consistent. rewrite Hcp, Hset. exact Hc. }
  destruct (manual_keys_run f s1 Hc1)
    as [s' [out [Hrun [_ [Hppm [Hunit Hkey]]]]]].
  rewrite Hfound in Hkey, Hrun.
  exists s1, out1, s'. eexists. split; [exact Htrack|].
  split; [|split; [exact Hppm | split; [exact Hunit | exact Hkey]]].
  unfold Manual.loop_body. cbv zeta. rewrite Hfound.
  eapply bind_done; [exact Htrack | exact Hrun].
Qed.

(** C8. In manual mode a [c] key on a frame without the target marker is
    rejected: the loop goes on with the context exactly as it was before the
    frame, and the warning is printed. *)
Theorem set_center_rejected (f : Manual.Frame) (s : Context) :
  reference_consistent s ->
  Manual.found_target_qr f = None ->
  key_code (Manual.wait_key f) = ord "c" ->
  Manual.set_center None (Manual.key_time f) s
  = Done tt s
      [Print "Warning: Cannot set center. Target QR code not visible."]
  /\ exists out,
      Manual.loop_body f s = Done true s out
      /\ In (Print "Warning: Cannot set center. Target QR code not visible.")
           out.
Proof.
  intros Hc Hfound Hkey. split; [reflexivity|].
  destruct (manual_loop_body_absent f s Hc Hfound) as [out [Hrun [_ Hwarn]]].
  rewrite Hkey in Hrun, Hwarn. exists out. split; [exact Hrun|].
  apply Hwarn. reflexivity.
Qed.

Lemma reference_consistent_sample : reference_consistent sample_context.
Proof. intros _. exists (0, 0)%Z. reflexivity. Qed.

Lemma set_center_rejected_witness :
  reference_consistent sample_context
  /\ Manual.found_target_qr empty_frame_c = None
  /\ key_code (Manual.wait_key empty_frame_c) = ord "c"
  /\ exists out, Manual.loop_body empty_frame_c sample_context
                 = Done true sample_context out.
Proof.
  split; [exact reference_consistent_sample|].
  split; [reflexivity|]. split; [reflexivity|].
  destruct (set_center_rejected empty_frame_c sample_context
              reference_consistent_sample eq_refl eq_refl)
    as [_ [out [Hrun _]]].
  exists out. exact Hrun.
Defined.

(** C10. In manual mode a [c] key on a frame with the target marker stores
    the target's centre as the reference, empties the history and sets
    [last_movement_time] to the time of the command; the motion axis is then
    MOVING at every time less than [STILL_TIME_THRESHOLD] after it. *)
Theorem set_center_accepted (f : Manual.Frame) (s : Context) (d : Detection) :
  reference_consistent s ->
  Manual.found_target_qr f = Some d ->
  key_code (Manual.wait_key f) = ord "c" ->
  exists s' out,
    Manual.loop_body f s = Done true s' out
    /\ center_pixel s' = Some (center d)
    /\ is_center_set s' = true
    /\ position_history s' = []
    /\ last_movement_time s' = Some (Manual.key_time f)
    /\ forall t, t - Manual.key_time f < 1.0 ->
                 is_qr_still t s' = Done false s' [].
Proof.
  intros Hc Hfound Hkey.
  destruct (manual_loop_body_present f s d Hc Hfound)
    as [s1 [out1 [s' [out [_ [Hrun [_ [_ Hc']]]]]]]].
  rewrite Hkey in Hrun, Hc'. simpl in Hrun, Hc'.
  destruct Hc' as [Hcp [Hset [Hhist Hlast]]].
  exists s', out. repeat split; try assumption.
  intros t Ht. rewrite is_qr_still_run, Hlast.
  replace (Rleb STILL_TIME_THRESHOLD (t - Manual.key_time f)) with false;
    [reflexivity|].
  symmetry. apply Rleb_false. unfold STILL_TIME_THRESHOLD. lra.
Qed.

Lemma set_center_accepted_witness :
  reference_consistent (initial_context "mm")
  /\ Manual.found_target_qr target_frame_c
     = Some (mkDetection TARGET_QR_DATA (320, 240)%Z 200)
  /\ key_code (Manual.wait_key target_frame_c) = ord "c"
  /\ exists s' out,
      Manual.loop_body target_frame_c (initial_context "mm")
      = Done true s' out
      /\ center_pixel s' = Some (320, 240)%Z
      /\ position_history s' = []
      /\ last_movement_time s' = Some 7.5.
Proof.
  assert (Hc : reference_consistent (initial_context "mm"))
    by (intros H; discriminate H).
  split; [exact Hc|]. split; [reflexivity|]. split; [reflexivity|].
  destruct (set_center_accepted target_frame_c (initial_context "mm")
              (mkDetection TARGET_QR_DATA (320, 240)%Z 200)
              Hc eq_refl eq_refl)
    as [s' [out [Hrun [Hcp [_ [Hhist [Hlast _]]]]]]].
  exists s', out. repeat split; assumption.
Defined.

(** ** Dual-marker mode *)

Lemma handle_center_near (s : Context) (d : Detection) (now : R) :
  near_reference s (center d) ->
  Dual.handle_center d now s = Done tt s [DrawCenterCode (center d)].
Proof.
  intros [Hset [ref [Href Hnear]]].
  unfold Dual.handle_center, Dual.must_acquire. unfold_monad.
  rewrite Hset, Href. simpl.
  replace (Rltb 10 (pixel_distance (center d) ref)) with false
    by (symmetry; apply Rltb_false; exact Hnear).
  reflexivity.
Qed.

Lemma handle_center_far (s : Context) (d : Detection) (now : R) :
  reference_consistent s ->
  reacquires s (center d) ->
  Dual.handle_center d now s
  = Done tt (mkContext (Some (center d)) true (pixels_per_mm s)
               (measurement_unit s) [] (Some now))
      [PrintCenter "Center automatically set at pixel coordinates: "
         (center d);
       DrawCenterCode (center d)].
Proof.
  intros Hc Hfar.
  unfold Dual.handle_center, Dual.must_acquire. unfold_monad.
  destruct (is_center_set s) eqn:Hset; simpl.
  - destruct Hfar as [Hfar | [ref [Href Hfar]]]; [congruence|].
    rewrite Href. simpl.
    replace (Rltb 10 (pixel_distance (center d) ref)) with true
      by (symmetry; apply Rltb_true; exact Hfar).
    reflexivity.
  - reflexivity.
Qed.

Lemma near_or_reacquires (s : Context) (c : pixel) :
  reference_consistent s -> near_reference s c \/ reacquires s c.
Proof.
  intros Hc. destruct (is_center_set s) eqn:Hset.
  - destruct (Hc Hset) as [ref Href].
    destruct (Rle_dec (pixel_distance c ref) 10) as [Hle | Hgt].
    + left. split; [exact Hset|]. exists ref. split; assumption.
    + right. right. exists ref. split; [assumption | lra].
  - right. left. exact Hset.
Qed.

Lemma handle_center_run (s : Context) (d : Detection) (now : R) :
  reference_consistent s ->
  exists s' out,
    Dual.handle_center d now s = Done tt s' out
    /\ quiet out
    /\ pixels_per_mm s' = pixels_per_mm s
    /\ measurement_unit s' = measurement_unit s
    /\ reference_consistent s'.
Proof.
  intros Hc. destruct (near_or_reacquires s (center d) Hc) as [Hn | Hf].
  - exists s. eexists. split; [apply handle_center_near; exact Hn|].
    repeat split; try assumption. repeat constructor.
  - eexists. eexists. split; [apply handle_center_far; assumption|].
    repeat split; try reflexivity; [repeat constructor|].
    intros _. exists (center d). reflexivity.
Qed.

(** The loop over the codes returns and keeps the invariants. *)
Lemma for_qr_codes_invariants (now : R) (codes : list (Detection * R)) :
  forall (flags : bool * bool) (s : Context),
    reference_consistent s -> scale_positive s ->
    exists flags' s' out,
      Dual.for_qr_codes now codes flags s = Done flags' s' out
      /\ reference_consistent s' /\ scale_positive s'.
Proof.
  induction codes as [|[d t] codes IH]; intros flags s Hc Hs; simpl.
  - exists flags, s, []. repeat split; assumption.
  - destruct (String.eqb (data d) CENTER_QR_DATA).
    + destruct (handle_center_run s d t Hc)
        as [s1 [o1 [Hrun [_ [Hppm [_ Hc1]]]]]].
      assert (Hs1 : scale_positive s1)
        by (unfold scale_positive; rewrite Hppm; exact Hs).
      destruct (IH (true, snd flags) s1 Hc1 Hs1)
        as [flags' [s' [out [Hrest Hinv]]]].
      exists flags', s'. eexists. split; [|exact Hinv].
      eapply bind_done; eassumption.
    + destruct (String.eqb (data d) TARGET_QR_DATA).
      * destruct (track_target_invariants Dual.get_status_color s d now Hc Hs)
          as [s1 [o1 [Hrun [Hc1 Hs1]]]].
        destruct (IH (fst flags, true) s1 Hc1 Hs1)
          as [flags' [s' [out [Hrest Hinv]]]].
        exists flags', s'. eexists. split; [|exact Hinv].
        eapply bind_done; eassumption.
      * apply IH; assumption.
Qed.

(** Without a target code the loop leaves the scale alone and emits no
    target record. *)
Lemma for_qr_codes_no_target (now : R) (codes : list (Detection * R)) :
  forall (flags : bool * bool) (s : Context),
    reference_consistent s ->
    Forall (fun c => data (fst c) <> TARGET_QR_DATA) codes ->
    exists flags' s' out,
      Dual.for_qr_codes now codes flags s = Done flags' s' out
      /\ quiet out
      /\ pixels_per_mm s' = pixels_per_mm s
      /\ reference_consistent s'.
Proof.
  induction codes as [|[d t] codes IH]; intros flags s Hc Hno; simpl.
  - exists flags, s, []. repeat split; try assumption. constructor.
  - inversion Hno as [|? ? Hd Hrest]; subst. simpl in Hd.
    destruct (String.eqb (data d) CENTER_QR_DATA).
    + destruct (handle_center_run s d t Hc)
        as [s1 [o1 [Hrun [Hq1 [Hppm [_ Hc1]]]]]].
      destruct (IH (true, snd flags) s1 Hc1 Hrest)
        as [flags' [s' [out [Hrun' [Hq [Hppm' Hc']]]]]].
      exists flags', s'. eexists.
      split; [eapply bind_done; eassumption|].
      split; [apply Forall_app; split; assumption|].
      split; [congruence | assumption].
    + destruct (String.eqb (data d) TARGET_QR_DATA) eqn:E.
      * apply String.eqb_eq in E. contradiction.
      * apply IH; assumption.
Qed.

(** Without a target code and with every centre code near the stored
    reference, the loop changes nothing. *)
Lemma for_qr_codes_idle (now : R) (codes : list (Detection * R))
  (s : Context) :
  forall flags : bool * bool,
    Forall (fun c => data (fst c) <> TARGET_QR_DATA
                     /\ (data (fst c) = CENTER_QR_DATA ->
                         near_reference s (center (fst c)))) codes ->
    exists flags' out,
      Dual.for_qr_codes now codes flags s = Done flags' s out /\ quiet out.
Proof.
  induction codes as [|[d t] codes IH]; intros flags Hall; simpl.
  - exists flags, []. split; [reflexivity | constructor].
  - inversion Hall as [|? ? [Hd Hnear] Hrest]; subst. simpl in Hd, Hnear.
    destruct (String.eqb (data d) CENTER_QR_DATA) eqn:Ec.
    + apply String.eqb_eq in Ec.
      destruct (IH (true, snd flags) Hrest) as [flags' [out [Hrun Hq]]].
      exists flags'. eexists.
      split; [eapply bind_done;
              [apply handle_center_near; auto | exact Hrun]|].
      apply Forall_app. split; [repeat constructor | exact Hq].
    + destruct (String.eqb (data d) TARGET_QR_DATA) eqn:E.
      * apply String.eqb_eq in E. contradiction.
      * apply IH; assumption.
Qed.

(** With every centre code within 10 pixels of the stored reference, the
    loop over the codes keeps the reference. *)
Lemma for_qr_codes_keeps_reference (now : R) (codes : list (Detection * R))
  (ref : pixel) :
  forall (flags : bool * bool) (s : Context),
    is_center_set s = true -> center_pixel s = Some ref ->
    Forall (fun c => data (fst c) = CENTER_QR_DATA ->
                     pixel_distance (center (fst c)) ref <= 10) codes ->
    exists flags' s' out,
      Dual.for_qr_codes now codes flags s = Done flags' s' out
      /\ is_center_set s' = true /\ center_pixel s' = Some ref.
Proof.
  induction codes as [|[d t] codes IH]; intros flags s Hset Href Hall; simpl.
  - exists flags, s, []. repeat split; assumption.
  - inversion Hall as [|? ? Hnear Hrest]; subst. simpl in Hnear.
    destruct (String.eqb (data d) CENTER_QR_DATA) eqn:Ec.
    + apply String.eqb_eq in Ec.
      destruct (IH (true, snd flags) s Hset Href Hrest)
        as [flags' [s' [out [Hrun Hkeep]]]].
      exists flags', s'. eexists. split; [|exact Hkeep].
      eapply bind_done; [|exact Hrun].
      apply handle_center_near. split; [exact Hset|].
      exists ref. split; [exact Href | auto].
    + destruct (String.eqb (data d) TARGET_QR_DATA).
      * assert (Hc : reference_consistent s)
          by (intros _; exists ref; exact Href).
        destruct (track_target_frame Dual.get_status_color s d now Hc)
          as [s1 [o1 [Hrun [Hcp [Hset1 _]]]]].
        rewrite Href in Hcp. rewrite Hset in Hset1.
        destruct (IH (fst flags, true) s1 Hset1 Hcp Hrest)
          as [flags' [s' [out [Hrun' Hkeep]]]].
        exists flags', s'. eexists. split; [|exact Hkeep].
        eapply bind_done; eassumption.
      * apply IH; assumption.
Qed.

Lemma dual_show_reference_run (found_center_qr : bool) (s : Context) :
  reference_consistent s ->
  exists out, Dual.show_reference found_center_qr s = Done tt s out
              /\ quiet out.
Proof.
  intros Hc. unfold Dual.show_reference. unfold_monad.
  destruct (is_center_set s) eqn:Hset; simpl.
  - destruct (Hc Hset) as [ref Href]. rewrite Href. simpl.
    eexists. split; [reflexivity | repeat constructor].
  - destruct found_center_qr; eexists; (split; [reflexivity|]);
      repeat constructor.
Qed.

Lemma show_codes_run (flags : bool * bool) (s : Context) :
  exists out, Dual.show_codes flags s = Done tt s out /\ quiet out.
Proof.
  unfold Dual.show_codes. destruct flags as [[|] [|]]; simpl;
    eexists; (split; [reflexivity|]); repeat constructor.
Qed.

(** The part of the loop body after the codes have been handled. *)
Lemma dual_keys_run (f : Dual.Frame) (flags : bool * bool) (s : Context) :
  reference_consistent s ->
  exists s' out,
    (Dual.show_reference (fst flags) ;;;
     Dual.show_codes flags ;;;
     emit Present ;;;
     (let key := key_code (Dual.wait_key f) in
      if (key =? ord "q")%Z then
        emit (Print "'q' pressed. Exiting.") ;;; ret false
      else if (key =? ord "r")%Z then Dual.reset_center ;;; ret true
      else ret true)) s
    = Done (negb (key_code (Dual.wait_key f) =? ord "q")%Z) s' out
    /\ quiet out
    /\ pixels_per_mm s' = pixels_per_mm s
    /\ measurement_unit s' = measurement_unit s
    /\ if (key_code (Dual.wait_key f) =? ord "r")%Z
       then center_pixel s' = None /\ is_center_set s' = false
            /\ position_history s' = [] /\ last_movement_time s' = None
       else s' = s.
Proof.
  intros Hc.
  destruct (dual_show_reference_run (fst flags) s Hc) as [o1 [Hshow Hq1]].
  destruct (show_codes_run flags s) as [o2 [Hcodes Hq2]].
  destruct (key_code (Dual.wait_key f) =? ord "q")%Z eqn:Hkq.
  - assert (Hkr : (key_code (Dual.wait_key f) =? ord "r")%Z = false).
    { apply Z.eqb_eq in Hkq. rewrite Hkq. reflexivity. }
    rewrite Hkr. exists s. eexists. split.
    { eapply bind_done; [exact Hshow|]. eapply bind_done; [exact Hcodes|].
      eapply bind_done; [reflexivity|]. cbv zeta. rewrite Hkq. reflexivity. }
    repeat split.
    repeat (apply Forall_app; split); try assumption; repeat constructor.
  - destruct (key_code (Dual.wait_key f) =? ord "r")%Z eqn:Hkr.
    + eexists. eexists. split.
      { eapply bind_done; [exact Hshow|]. eapply bind_done; [exact Hcodes|].
        eapply bind_done; [reflexivity|]. cbv zeta. rewrite Hkq, Hkr.
        unfold Dual.reset_center. unfold_monad. simpl. reflexivity. }
      repeat split.
      repeat (apply Forall_app; split); try assumption; repeat constructor.
    + exists s. eexists. split.
      { eapply bind_done; [exact Hshow|]. eapply bind_done; [exact Hcodes|].
        eapply bind_done; [reflexivity|]. cbv zeta. rewrite Hkq, Hkr.
        reflexivity. }
      repeat split.
      repeat (apply Forall_app; split); try assumption; repeat constructor.
Qed.

Lemma dual_loop_body_run (f : Dual.Frame) (s : Context) :
  (exists flags s1 o1,
      Dual.for_qr_codes (Dual.current_time f) (Dual.qr_codes f)
        (false, false) s = Done flags s1 o1
      /\ reference_consistent s1) ->
  exists flags s1 o1 s' o2,
    Dual.for_qr_codes (Dual.current_time f) (Dual.qr_codes f)
      (false, false) s = Done flags s1 o1
    /\ Dual.loop_body f s
       = Done (negb (key_code (Dual.wait_key f) =? ord "q")%Z) s' (o1 ++ o2)
    /\ quiet o2
    /\ pixels_per_mm s' = pixels_per_mm s1
    /\ if (key_code (Dual.wait_key f) =? ord "r")%Z
       then center_pixel s' = None /\ is_center_set s' = false
            /\ position_history s' = [] /\ last_movement_time s' = None
       else s' = s1.
Proof.
  intros [flags [s1 [o1 [Hloop Hc1]]]].
  destruct (dual_keys_run f flags s1 Hc1)
    as [s' [o2 [Hrun [Hq [Hppm [_ Hkey]]]]]].
  exists flags, s1, o1, s', o2. split; [exact Hloop|].
  split; [|split; [exact Hq | split; [exact Hppm | exact Hkey]]].
  unfold Dual.loop_body. eapply bind_done; [exact Hloop | exact Hrun].
Qed.

Lemma pixel_distance_le (a b : pixel) (r : R) :
  0 <= r ->
  IZR ((fst a - fst b) ^ 2 + (snd a - snd b) ^ 2) <= r * r ->
  pixel_distance a b <= r.
Proof.
  intros Hr Hle. unfold pixel_distance.
  rewrite <- (sqrt_square r Hr). apply sqrt_le_1_alt. exact Hle.
Qed.

Lemma pixel_distance_gt (a b : pixel) (r : R) :
  0 <= r ->
  r * r < IZR ((fst a - fst b) ^ 2 + (snd a - snd b) ^ 2) ->
  r < pixel_distance a b.
Proof.
  intros Hr Hlt. unfold pixel_distance.
  rewrite <- (sqrt_square r Hr) at 1. apply sqrt_lt_1_alt. split; [nra | exact Hlt].
Qed.

Lemma dual_main_loop_steady (ref : pixel) (frames : list Dual.Frame) :
  forall s : Context,
    is_center_set s = true -> center_pixel s = Some ref ->
    Forall (steady_frame ref) frames ->
    exists s' out,
      Dual.main_loop frames s = Done tt s' out
      /\ is_center_set s' = true /\ center_pixel s' = Some ref.
Proof.
  induction frames as [|f frames IH]; intros s Hset Href Hall; simpl.
  - exists s. eexists. split; [reflexivity | split; assumption].
  - inversion Hall as [|? ? [Hkey Hcodes] Hrest]; subst.
    destruct (for_qr_codes_keeps_reference (Dual.current_time f)
                (Dual.qr_codes f) ref (false, false) s Hset Href Hcodes)
      as [flags [s1 [o1 [Hloop [Hset1 Href1]]]]].
    assert (Hc1 : reference_consistent s1)
      by (intros _; exists ref; exact Href1).
    destruct (dual_loop_body_run f s
                (ex_intro _ flags (ex_intro _ s1 (ex_intro _ o1
                   (conj Hloop Hc1)))))
      as [flags' [s1' [o1' [s' [o2 [Hloop' [Hbody [_ [_ Hk]]]]]]]]].
    rewrite Hloop in Hloop'. injection Hloop' as <- <- <-.
    apply Z.eqb_neq in Hkey. rewrite Hkey in Hk. subst s'.
    destruct (negb (key_code (Dual.wait_key f) =? ord "q")%Z) eqn:Hq.
    + destruct (IH s1 Hset1 Href1 Hrest) as [s' [out [Hrun Hkeep]]].
      exists s'. eexists. split; [|exact Hkeep].
      eapply bind_done; [exact Hbody|]. exact Hrun.
    + exists s1. eexists. split; [|split; assumption].
      eapply bind_done; [exact Hbody|]. reflexivity.
Qed.

(** C4. In dual-marker mode: (1) over any run of frames without a reset
    key in which every centre code lies within 10 pixels of the stored
    reference, the reference stays what it was; (2) a centre code seen with
    no reference stored, or more than 10 pixels from the stored one, makes
    its position the reference, empties the history and sets
    [last_movement_time] to the time of that moment; (3) so does a frame
    whose only code is such a centre code. *)
Theorem reference_reacquisition :
  (forall (ref : pixel) (frames : list Dual.Frame) (s : Context),
      is_center_set s = true -> center_pixel s = Some ref ->
      Forall (steady_frame ref) frames ->
      exists s' out,
        Dual.main_loop frames s = Done tt s' out
        /\ is_center_set s' = true /\ center_pixel s' = Some ref)
  /\ (forall (d : Detection) (now : R) (s : Context),
        reference_consistent s ->
        (is_center_set s = false
         \/ exists ref, center_pixel s = Some ref
                        /\ 10 < pixel_distance (center d) ref) ->
        exists s' out,
          Dual.handle_center d now s = Done tt s' out
          /\ center_pixel s' = Some (center d)
          /\ is_center_set s' = true
          /\ position_history s' = []
          /\ last_movement_time s' = Some now)
  /\ (forall (f : Dual.Frame) (d : Detection) (now : R) (s : Context),
        reference_consistent s ->
        Dual.qr_codes f = [(d, now)] ->
        data d = CENTER_QR_DATA ->
        key_code (Dual.wait_key f) <> ord "r" ->
        (is_center_set s = false
         \/ exists ref, center_pixel s = Some ref
                        /\ 10 < pixel_distance (center d) ref) ->
        exists continue s' out,
          Dual.loop_body f s = Done continue s' out
          /\ center_pixel s' = Some (center d)
          /\ is_center_set s' = true
          /\ position_history s' = []
          /\ last_movement_time s' = Some now).
Proof.
  split; [|split].
  - intros ref frames s. apply dual_main_loop_steady.
  - intros d now s Hc Hfar. eexists. eexists.
    split; [apply handle_center_far; assumption|].
    repeat split; reflexivity.
  - intros f d now s Hc Hcodes Hdata Hkey Hfar.
    assert (Hloop : Dual.for_qr_codes (Dual.current_time f) (Dual.qr_codes f)
                      (false, false) s
                    = Done (true, false)
                        (mkContext (Some (center d)) true (pixels_per_mm s)
                           (measurement_unit s) [] (Some now))
                        [PrintCenter
                           "Center automatically set at pixel coordinates: "
                           (center d);
                         DrawCenterCode (center d)]).
    { rewrite Hcodes. simpl.
      replace (String.eqb (data d) CENTER_QR_DATA) with true
        by (symmetry; apply String.eqb_eq; exact Hdata).
      unfold bind. rewrite handle_center_far by assumption. reflexivity. }
    assert (Hc1 : reference_consistent
                    (mkContext (Some (center d)) true (pixels_per_mm s)
                       (measurement_unit s) [] (Some now)))
      by (intros _; exists (center d); reflexivity).
    destruct (dual_loop_body_run f s
                (ex_intro _ _ (ex_intro _ _ (ex_intro _ _
                   (conj Hloop Hc1)))))
      as [flags' [s1' [o1' [s' [o2 [Hloop' [Hbody [_ [_ Hk]]]]]]]]].
    rewrite Hloop in Hloop'. injection Hloop' as <- <- <-.
    apply Z.eqb_neq in Hkey. rewrite Hkey in Hk. subst s'.
    eexists. eexists. eexists. split; [exact Hbody|].
    repeat split; reflexivity.
Qed.

Lemma jitter_is_near : pixel_distance (105, 103)%Z (100, 100)%Z <= 10.
Proof.
  apply pixel_distance_le; [lra|]. simpl fst. simpl snd.
  replace ((105 - 100) ^ 2 + (103 - 100) ^ 2)%Z with 34%Z by reflexivity.
  lra.
Qed.

Lemma jump_is_far : 10 < pixel_distance (120, 130)%Z (100, 100)%Z.
Proof.
  apply pixel_distance_gt; [lra|]. simpl fst. simpl snd.
  replace ((120 - 100) ^ 2 + (130 - 100) ^ 2)%Z with 1300%Z by reflexivity.
  lra.
Qed.

Lemma stored_context_consistent : reference_consistent stored_context.
Proof. intros _. exists (100, 100)%Z. reflexivity. Qed.

Lemma reference_reacquisition_witness :
  (is_center_set stored_context = true
   /\ center_pixel stored_context = Some (100, 100)%Z
   /\ Forall (steady_frame (100, 100)%Z) [jitter_frame; jitter_frame]
   /\ exists s' out,
       Dual.main_loop [jitter_frame; jitter_frame] stored_context
       = Done tt s' out
       /\ is_center_set s' = true /\ center_pixel s' = Some (100, 100)%Z)
  /\ (reference_consistent stored_context
      /\ 10 < pixel_distance (120, 130)%Z (100, 100)%Z
      /\ exists s' out,
          Dual.handle_center (center_code (120, 130)%Z) 3 stored_context
          = Done tt s' out
          /\ center_pixel s' = Some (120, 130)%Z
          /\ is_center_set s' = true
          /\ position_history s' = []
          /\ last_movement_time s' = Some 3)
  /\ (Dual.qr_codes jump_frame = [(center_code (120, 130)%Z, 3)]
      /\ key_code (Dual.wait_key jump_frame) <> ord "r"
      /\ exists continue s' out,
          Dual.loop_body jump_frame stored_context = Done continue s' out
          /\ center_pixel s' = Some (120, 130)%Z
          /\ is_center_set s' = true
          /\ position_history s' = []
          /\ last_movement_time s' = Some 3).
Proof.
  assert (Hsteady : Forall (steady_frame (100, 100)%Z)
                      [jitter_frame; jitter_frame]).
  { assert (Hf : steady_frame (100, 100)%Z jitter_frame).
    { split.
      - intros H. vm_compute in H. discriminate H.
      - constructor; [intros _; exact jitter_is_near | constructor]. }
    constructor; [exact Hf | constructor; [exact Hf | constructor]]. }
  assert (Hkey : key_code (Dual.wait_key jump_frame) <> ord "r")
    by (intros H; vm_compute in H; discriminate H).
  assert (Hfar : is_center_set stored_context = false
                 \/ exists ref, center_pixel stored_context = Some ref
                                /\ 10 < pixel_distance (120, 130)%Z ref).
  { right. exists (100, 100)%Z. split; [reflexivity | exact jump_is_far]. }
  destruct reference_reacquisition as [Hrun [Hcode Hframe]].
  split; [|split].
  - split; [reflexivity|]. split; [reflexivity|]. split; [exact Hsteady|].
    apply (Hrun (100, 100)%Z [jitter_frame; jitter_frame] stored_context);
      [reflexivity | reflexivity | exact Hsteady].
  - split; [exact stored_context_consistent|]. split; [exact jump_is_far|].
    apply (Hcode (center_code (120, 130)%Z) 3 stored_context
             stored_context_consistent Hfar).
  - split; [reflexivity|]. split; [exact Hkey|].
    apply (Hframe jump_frame (center_code (120, 130)%Z) 3 stored_context
             stored_context_consistent eq_refl eq_refl Hkey Hfar).
Defined.

(** ** Frames without the target marker *)

(** C7, as the code has it.  A frame without the target marker emits no
    displacement or status record and leaves the calibration scale alone in
    both modes.  In manual mode the whole context is left as it was.  In
    dual-marker mode the whole context is left as it was when, in addition,
    no reset key is pressed and every centre code of the frame lies within
    10 pixels of a stored reference. *)
Theorem target_absent_frame :
  (forall (f : Manual.Frame) (s : Context),
      reference_consistent s ->
      Manual.found_target_qr f = None ->
      exists continue out,
        Manual.loop_body f s = Done continue s out /\ quiet out)
  /\ (forall (f : Dual.Frame) (s : Context),
        reference_consistent s ->
        Forall (fun c => data (fst c) <> TARGET_QR_DATA) (Dual.qr_codes f) ->
        exists continue s' out,
          Dual.loop_body f s = Done continue s' out
          /\ quiet out
          /\ pixels_per_mm s' = pixels_per_mm s
          /\ (key_code (Dual.wait_key f) <> ord "r" ->
              Forall (fun c => data (fst c) = CENTER_QR_DATA ->
                               near_reference s (center (fst c)))
                (Dual.qr_codes f) ->
              s' = s)).
Proof.
  split.
  - intros f s Hc Hfound.
    destruct (manual_loop_body_absent f s Hc Hfound) as [out [Hrun [Hq _]]].
    eexists. exists out. split; [exact Hrun | exact Hq].
  - intros f s Hc Hno.
    destruct (for_qr_codes_no_target (Dual.current_time f) (Dual.qr_codes f)
                (false, false) s Hc Hno)
      as [flags [s1 [o1 [Hloop [Hq1 [Hppm1 Hc1]]]]]].
    destruct (dual_loop_body_run f s
                (ex_intro _ flags (ex_intro _ s1 (ex_intro _ o1
                   (conj Hloop Hc1)))))
      as [flags' [s1' [o1' [s' [o2 [Hloop' [Hbody [Hq2 [Hppm Hk]]]]]]]]].
    rewrite Hloop in Hloop'. injection Hloop' as <- <- <-.
    eexists. exists s'. eexists. split; [exact Hbody|].
    split; [apply Forall_app; split; assumption|].
    split; [congruence|].
    intros Hkey Hnear. apply Z.eqb_neq in Hkey. rewrite Hkey in Hk. subst s'.
    assert (Hidle : Forall (fun c => data (fst c) <> TARGET_QR_DATA
                                     /\ (data (fst c) = CENTER_QR_DATA ->
                                         near_reference s (center (fst c))))
                      (Dual.qr_codes f)).
    { apply Forall_forall. intros c Hin. split.
      - exact (proj1 (Forall_forall _ _) Hno c Hin).
      - exact (proj1 (Forall_forall _ _) Hnear c Hin). }
    destruct (for_qr_codes_idle (Dual.current_time f) (Dual.qr_codes f) s
                (false, false) Hidle) as [flags2 [out2 [Hloop2 _]]].
    rewrite Hloop in Hloop2. injection Hloop2 as _ Hs _. exact Hs.
Qed.

Lemma target_absent_frame_witness :
  (reference_consistent sample_context
   /\ Manual.found_target_qr empty_frame_c = None
   /\ exists continue out,
       Manual.loop_body empty_frame_c sample_context
       = Done continue sample_context out /\ quiet out)
  /\ (reference_consistent stored_context
      /\ Forall (fun c => data (fst c) <> TARGET_QR_DATA)
           (Dual.qr_codes jitter_frame)
      /\ exists continue s' out,
          Dual.loop_body jitter_frame stored_context = Done continue s' out
          /\ quiet out
          /\ pixels_per_mm s' = pixels_per_mm stored_context).
Proof.
  assert (Hno : Forall (fun c => data (fst c) <> TARGET_QR_DATA)
                  (Dual.qr_codes jitter_frame))
    by (repeat constructor; discriminate).
  destruct target_absent_frame as [Hmanual Hdual].
  split.
  - split; [exact reference_consistent_sample|]. split; [reflexivity|].
    apply (Hmanual empty_frame_c sample_context reference_consistent_sample
             eq_refl).
  - split; [exact stored_context_consistent|]. split; [exact Hno|].
    destruct (Hdual jitter_frame stored_context stored_context_consistent Hno)
      as [continue [s' [out [Hrun [Hq [Hppm _]]]]]].
    exists continue, s', out. repeat split; assumption.
Defined.

(** C7 as stated fails in dual-marker mode: a frame that shows only the
    centre code, 36 pixels from the stored reference, carries no target
    marker, yet it replaces the reference and empties the history. *)
Lemma target_absent_counterexample :
  Forall (fun c => data (fst c) <> TARGET_QR_DATA) (Dual.qr_codes jump_frame)
  /\ exists s' out,
      Dual.loop_body jump_frame stored_context = Done true s' out
      /\ center_pixel s' = Some (120, 130)%Z
      /\ center_pixel s' <> center_pixel stored_context
      /\ position_history s' = []
      /\ position_history s' <> position_history stored_context.
Proof.
  split; [repeat constructor; discriminate|].
  assert (Hfar : reacquires stored_context (120, 130)%Z).
  { right. exists (100, 100)%Z. split; [reflexivity | exact jump_is_far]. }
  eexists. eexists. split.
  { unfold Dual.loop_body. eapply bind_done.
    - simpl. unfold bind.
      rewrite (handle_center_far stored_context (center_code (120, 130)%Z) 3
                 stored_context_consistent Hfar).
      reflexivity.
    - reflexivity. }
  simpl. repeat split; discriminate.
Qed.

(** ** Calibration over a frame *)

(** C5. The physical width is [1.5 * 25.4 = 38.1] mm.  A target marker of
    pixel width [w > 0] sets the scale to [w / 38.1], which is positive, and
    changes nothing else; it does so in the handling of the target in both
    scripts and over a whole frame of the manual script.  A width of zero
    leaves the context alone, and a frame without the target marker leaves
    the scale alone in both modes. *)
Theorem calibrator_spec :
  (KNOWN_QR_CODE_WIDTH_CM * 10 = 1.5 * 25.4 /\ 1.5 * 25.4 = 38.1)
  /\ (forall (w : R) (s : Context),
        0 < w ->
        calibrate w s
        = Done tt (mkContext (center_pixel s) (is_center_set s)
                     (Some (w / 38.1)) (measurement_unit s)
                     (position_history s) (last_movement_time s)) []
        /\ 0 < w / 38.1)
  /\ (forall s : Context, calibrate 0 s = Done tt s [])
  /\ (forall (col : bool -> bool -> color) (d : Detection) (now : R)
             (s : Context),
        reference_consistent s ->
        exists s' out,
          track_target col d now s = Done tt s' out
          /\ (0 < pixel_width d ->
              pixels_per_mm s' = Some (pixel_width d / 38.1))
          /\ (pixel_width d = 0 -> pixels_per_mm s' = pixels_per_mm s))
  /\ (forall (f : Manual.Frame) (d : Detection) (s : Context),
        reference_consistent s ->
        Manual.found_target_qr f = Some d ->
        exists continue s' out,
          Manual.loop_body f s = Done continue s' out
          /\ (0 < pixel_width d ->
              pixels_per_mm s' = Some (pixel_width d / 38.1))
          /\ (pixel_width d = 0 -> pixels_per_mm s' = pixels_per_mm s))
  /\ (forall (f : Manual.Frame) (s : Context),
        reference_consistent s ->
        Manual.found_target_qr f = None ->
        exists continue s' out,
          Manual.loop_body f s = Done continue s' out
          /\ pixels_per_mm s' = pixels_per_mm s)
  /\ (forall (f : Dual.Frame) (s : Context),
        reference_consistent s ->
        Forall (fun c => data (fst c) <> TARGET_QR_DATA) (Dual.qr_codes f) ->
        exists continue s' out,
          Dual.loop_body f s = Done continue s' out
          /\ pixels_per_mm s' = pixels_per_mm s).
Proof.
  assert (Htrack : forall col d now s,
             reference_consistent s ->
             exists s' out,
               track_target col d now s = Done tt s' out
               /\ (0 < pixel_width d ->
                   pixels_per_mm s' = Some (pixel_width d / 38.1))
               /\ (pixel_width d = 0 -> pixels_per_mm s' = pixels_per_mm s)).
  { intros col d now s Hc.
    destruct (track_target_frame col s d now Hc)
      as [s' [out [Hrun [_ [_ [_ Hppm]]]]]].
    exists s', out. split; [exact Hrun|]. rewrite Hppm, known_width_mm. split.
    - intros Hw. apply Rltb_true in Hw. rewrite Hw. reflexivity.
    - intros Hw. replace (Rltb 0 (pixel_width d)) with false; [reflexivity|].
      symmetry. apply Rltb_false. lra. }
  split; [split; [rewrite known_width_mm|]; lra|].
  split; [|split; [|split; [exact Htrack|split; [|split]]]].
  - intros w s Hw. rewrite calibrate_run, known_width_mm.
    apply Rltb_true in Hw. rewrite Hw. split; [reflexivity|].
    apply Rltb_true in Hw. apply Rdiv_lt_0_compat; lra.
  - intros s. rewrite calibrate_run.
    replace (Rltb 0 0) with false by (symmetry; apply Rltb_false; lra).
    reflexivity.
  - intros f d s Hc Hfound.
    destruct (manual_loop_body_present f s d Hc Hfound)
      as [s1 [out1 [s' [out [Ht [Hrun [Hppm _]]]]]]].
    destruct (Htrack Manual.get_status_color d (Manual.current_time f) s Hc)
      as [s1' [out1' [Ht' [Hpos Hzero]]]].
    rewrite Ht in Ht'. injection Ht' as <- <-.
    eexists. exists s', out. split; [exact Hrun|]. rewrite Hppm.
    split; assumption.
  - intros f s Hc Hfound.
    destruct (manual_loop_body_absent f s Hc Hfound) as [out [Hrun _]].
    eexists. exists s, out. split; [exact Hrun | reflexivity].
  - intros f s Hc Hno.
    destruct (for_qr_codes_no_target (Dual.current_time f) (Dual.qr_codes f)
                (false, false) s Hc Hno)
      as [flags [s1 [o1 [Hloop [_ [Hppm1 Hc1]]]]]].
    destruct (dual_loop_body_run f s
                (ex_intro _ flags (ex_intro _ s1 (ex_intro _ o1
                   (conj Hloop Hc1)))))
      as [flags' [s1' [o1' [s' [o2 [Hloop' [Hbody [_ [Hppm _]]]]]]]]].
    rewrite Hloop in Hloop'. injection Hloop' as <- <- <-.
    eexists. exists s'. eexists. split; [exact Hbody | congruence].
Qed.

Lemma calibrator_spec_witness :
  0 < 200
  /\ calibrate 200 (initial_context "mm")
     = Done tt (mkContext None false (Some (200 / 38.1)) "mm" [] None) []
  /\ 0 < 200 / 38.1
  /\ reference_consistent (initial_context "mm")
  /\ Manual.found_target_qr target_frame_c
     = Some (mkDetection TARGET_QR_DATA (320, 240)%Z 200)
  /\ exists continue s' out,
      Manual.loop_body target_frame_c (initial_context "mm")
      = Done continue s' out
      /\ pixels_per_mm s' = Some (200 / 38.1).
Proof.
  assert (Hw : 0 < 200) by lra.
  assert (Hc : reference_consistent (initial_context "mm"))
    by (intros H; discriminate H).
  destruct calibrator_spec as [_ [Hcal [_ [_ [Hframe _]]]]].
  destruct (Hcal 200 (initial_context "mm") Hw) as [Hrun Hpos].
  split; [exact Hw|]. split; [exact Hrun|]. split; [exact Hpos|].
  split; [exact Hc|]. split; [reflexivity|].
  destruct (Hframe target_frame_c
              (mkDetection TARGET_QR_DATA (320, 240)%Z 200)
              (initial_context "mm") Hc eq_refl)
    as [continue [s' [out [Hbody [Hppm _]]]]].
  exists continue, s', out. split; [exact Hbody | exact (Hppm Hw)].
Defined.

(** ** The invariants hold throughout a run *)

Lemma initial_context_invariants (unit_choice : string) :
  reference_consistent (initial_context unit_choice)
  /\ scale_positive (initial_context unit_choice).
Proof.
  split.
  - intros H. discriminate H.
  - intros ppm H. discriminate H.
Qed.

Lemma manual_loop_body_invariants (f : Manual.Frame) (s : Context) :
  reference_consistent s -> scale_positive s ->
  exists continue s' out,
    Manual.loop_body f s = Done continue s' out
    /\ reference_consistent s' /\ scale_positive s'.
Proof.
  intros Hc Hs. destruct (Manual.found_target_qr f) as [d|] eqn:Hfound.
  - destruct (manual_loop_body_present f s d Hc Hfound)
      as [s1 [out1 [s' [out [Ht [Hrun [Hppm [_ Hkey]]]]]]]].
    destruct (track_target_invariants Manual.get_status_color s d
                (Manual.current_time f) Hc Hs)
      as [s1' [out1' [Ht' [Hc1 Hs1]]]].
    rewrite Ht in Ht'. injection Ht' as <- <-.
    eexists. exists s', out. split; [exact Hrun|]. split.
    + destruct (key_code (Manual.wait_key f) =? ord "c")%Z.
      * destruct Hkey as [Hcp _]. intros _. eexists. exact Hcp.
      * subst s'. exact Hc1.
    + unfold scale_positive. rewrite Hppm. exact Hs1.
  - destruct (manual_loop_body_absent f s Hc Hfound) as [out [Hrun _]].
    eexists. exists s, out. split; [exact Hrun | split; assumption].
Qed.

Lemma dual_loop_body_invariants (f : Dual.Frame) (s : Context) :
  reference_consistent s -> scale_positive s ->
  exists continue s' out,
    Dual.loop_body f s = Done continue s' out
    /\ reference_consistent s' /\ scale_positive s'.
Proof.
  intros Hc Hs.
  destruct (for_qr_codes_invariants (Dual.current_time f) (Dual.qr_codes f)
              (false, false) s Hc Hs)
    as [flags [s1 [o1 [Hloop [Hc1 Hs1]]]]].
  destruct (dual_loop_body_run f s
              (ex_intro _ flags (ex_intro _ s1 (ex_intro _ o1
                 (conj Hloop Hc1)))))
    as [flags' [s1' [o1' [s' [o2 [Hloop' [Hbody [_ [Hppm Hk]]]]]]]]].
  rewrite Hloop in Hloop'. injection Hloop' as <- <- <-.
  eexists. exists s'. eexists. split; [exact Hbody|]. split.
  - destruct (key_code (Dual.wait_key f) =? ord "r")%Z.
    + destruct Hk as [_ [Hset _]]. intros H. congruence.
    + subst s'. exact Hc1.
  - unfold scale_positive. rewrite Hppm. exact Hs1.
Qed.

(** ** The history as a sliding window *)

Lemma evict_old_suffix (now : R) (d : list (pixel * R)) :
  exists dropped, d = dropped ++ evict_old now d.
Proof.
  induction d as [|smp d [dropped IH]]; simpl.
  - exists []. reflexivity.
  - destruct (Rltb 3.0 (now - snd smp)).
    + exists (smp :: dropped). simpl. rewrite <- IH. reflexivity.
    + exists []. reflexivity.
Qed.

Lemma evict_old_front (now : R) (d : list (pixel * R)) :
  forall smp rest, evict_old now d = smp :: rest -> now - snd smp <= 3.0.
Proof.
  induction d as [|x d IH]; simpl; intros smp rest H; [discriminate|].
  destruct (Rltb 3.0 (now - snd x)) eqn:Hage.
  - eapply IH. exact H.
  - injection H as <- _. apply Rltb_false. exact Hage.
Qed.

Lemma evict_old_length (now : R) (d : list (pixel * R)) :
  (length (evict_old now d) <= length d)%nat.
Proof.
  induction d as [|x d IH]; simpl; [lia|].
  destruct (Rltb 3.0 (now - snd x)); simpl; lia.
Qed.

Lemma deque_append_suffix {A} (n : nat) (d : list A) (x : A) :
  exists dropped, d ++ [x] = dropped ++ deque_append n d x.
Proof.
  unfold deque_append. destruct (length d <? n)%nat.
  - exists []. reflexivity.
  - destruct d as [|y d]; [exists []; reflexivity|].
    exists [y]. reflexivity.
Qed.

Lemma deque_append_length {A} (n : nat) (d : list A) (x : A) :
  (0 < n)%nat -> (length d <= n)%nat ->
  (length (deque_append n d x) <= n)%nat.
Proof.
  intros Hn Hlen. unfold deque_append.
  destruct (length d <? n)%nat eqn:Hlt.
  - apply Nat.ltb_lt in Hlt. rewrite length_app. simpl. lia.
  - apply Nat.ltb_ge in Hlt. destruct d as [|y d]; simpl in *; [lia|].
    rewrite length_app. simpl. lia.
Qed.

Lemma update_history_shape (s : Context) (cur : pixel) (now : R) :
  exists s',
    update_position_history cur now s = Done tt s' []
    /\ position_history s'
       = evict_old now
           (deque_append history_maxlen (position_history s) (cur, now)).
Proof.
  destruct (position_history s) as [|smp d] eqn:Hd.
  - eexists. split; [apply update_on_empty; exact Hd|]. simpl.
    real_tests. reflexivity.
  - assert (Hne : position_history s <> []) by congruence.
    destruct (update_on_nonempty s cur now Hne) as [s' [Hrun Hhist]].
    exists s'. split; [exact Hrun|]. rewrite Hhist, Hd. reflexivity.
Qed.

Lemma update_window (s : Context) (cur : pixel) (now : R) :
  exists s' dropped,
    update_position_history cur now s = Done tt s' []
    /\ position_history s ++ [(cur, now)] = dropped ++ position_history s'
    /\ (exists kept, position_history s' = kept ++ [(cur, now)])
    /\ (forall smp rest,
          position_history s' = smp :: rest -> now - snd smp <= 3.0).
Proof.
  destruct (update_history_shape s cur now) as [s' [Hrun Hhist]].
  destruct (deque_append_suffix history_maxlen (position_history s) (cur, now))
    as [d1 Hd1].
  destruct (evict_old_suffix now
              (deque_append history_maxlen (position_history s) (cur, now)))
    as [d2 Hd2].
  destruct (update_position_history_run s cur now)
    as [s2 [Hrun2 [_ [_ [_ [_ [Hkept _]]]]]]].
  rewrite Hrun in Hrun2. injection Hrun2 as <-.
  exists s', (d1 ++ d2). split; [exact Hrun|]. split; [|split].
  - rewrite Hd1, Hhist, <- app_assoc, <- Hd2. reflexivity.
  - exact Hkept.
  - intros smp rest H. rewrite Hhist in H. eapply evict_old_front. exact H.
Qed.

(** X1. Whatever the timestamps, [update_position_history] only drops
    samples from the front: the stored history followed by the new sample
    is what was dropped followed by the new history; the new sample is the
    last one, and the first one left is at most 3.0 old. *)
Theorem history_is_a_window (s : Context) (cur : pixel) (now : R) :
  exists s' dropped,
    update_position_history cur now s = Done tt s' []
    /\ position_history s ++ [(cur, now)] = dropped ++ position_history s'
    /\ (exists kept, position_history s' = kept ++ [(cur, now)])
    /\ (forall smp rest,
          position_history s' = smp :: rest -> now - snd smp <= 3.0).
Proof. apply update_window. Qed.

Lemma update_history_ok (s : Context) (cur : pixel) (now : R) :
  history_ok s ->
  exists s',
    update_position_history cur now s = Done tt s' []
    /\ history_ok s'
    /\ position_history s' <> []
    /\ last_movement_time s' <> None.
Proof.
  intros [Hlen Hlast].
  destruct (update_history_shape s cur now) as [s' [Hrun Hhist]].
  destruct (update_position_history_run s cur now)
    as [s2 [Hrun2 [_ [_ [_ [_ [[kept Hkept] Hmove]]]]]]].
  rewrite Hrun in Hrun2. injection Hrun2 as <-.
  assert (Hne : position_history s' <> []).
  { rewrite Hkept. destruct kept; discriminate. }
  assert (Hset : last_movement_time s' <> None).
  { destruct (position_history s) as [|smp d] eqn:Hd.
    - rewrite (update_on_empty s cur now Hd) in Hrun.
      injection Hrun as <-. discriminate.
    - destruct Hmove as [Hsame | Hnow]; [|rewrite Hnow; discriminate].
      rewrite Hsame. apply Hlast. discriminate. }
  exists s'. split; [exact Hrun|]. split; [|split; assumption].
  split; [|intros _; exact Hset].
  rewrite Hhist.
  eapply Nat.le_trans; [apply evict_old_length|].
  apply deque_append_length; [unfold history_maxlen; lia | exact Hlen].
Qed.

(** ** Invariants over whole runs *)

Lemma track_target_ok (col : bool -> bool -> color) (s : Context)
  (d : Detection) (now : R) :
  context_ok s ->
  exists s' out,
    track_target col d now s = Done tt s' out
    /\ context_ok s'
    /\ measurement_unit s' = measurement_unit s
    /\ (pixels_per_mm s <> None -> pixels_per_mm s' <> None)
    /\ position_history s' <> []
    /\ last_movement_time s' <> None.
Proof.
  intros [Hc [Hs Hh]].
  destruct (track_target_run col s d now Hc)
    as [s1 [s' [out [Hcal [Hup Hrun]]]]].
  destruct (track_target_invariants col s d now Hc Hs)
    as [s2 [out2 [Hrun2 [Hc' Hs']]]].
  rewrite Hrun in Hrun2. injection Hrun2 as <- <-.
  destruct (track_target_frame col s d now Hc)
    as [s3 [out3 [Hrun3 [_ [_ [Hunit Hppm]]]]]].
  rewrite Hrun in Hrun3. injection Hrun3 as <- <-.
  assert (Hh1 : history_ok s1).
  { rewrite calibrate_run in Hcal. injection Hcal as <-.
    destruct (Rltb 0 (pixel_width d)); exact Hh. }
  destruct (update_history_ok s1 (center d) now Hh1)
    as [s4 [Hup4 [Hh' [Hne Hlast]]]].
  rewrite Hup in Hup4. injection Hup4 as <-.
  exists s', out. split; [exact Hrun|].
  split; [split; [exact Hc' | split; [exact Hs' | exact Hh']]|].
  split; [exact Hunit|]. split; [|split; assumption].
  intros Hset. rewrite Hppm.
  destruct (Rltb 0 (pixel_width d)); [discriminate | exact Hset].
Qed.

Lemma handle_center_ok (s : Context) (d : Detection) (now : R) :
  context_ok s ->
  exists s' out,
    Dual.handle_center d now s = Done tt s' out
    /\ context_ok s'
    /\ measurement_unit s' = measurement_unit s
    /\ pixels_per_mm s' = pixels_per_mm s.
Proof.
  intros [Hc [Hs Hh]].
  destruct (near_or_reacquires s (center d) Hc) as [Hn | Hf].
  - exists s. eexists. split; [apply handle_center_near; exact Hn|].
    split; [split; [exact Hc | split; [exact Hs | exact Hh]]|].
    split; reflexivity.
  - eexists. eexists. split; [apply handle_center_far; assumption|].
    split; [|split; reflexivity].
    split; [intros _; exists (center d); reflexivity|].
    split; [exact Hs|]. split; [simpl; lia|].
    simpl. intros _. discriminate.
Qed.

Lemma for_qr_codes_ok (now : R) (codes : list (Detection * R)) :
  forall (flags : bool * bool) (s : Context),
    context_ok s ->
    exists flags' s' out,
      Dual.for_qr_codes now codes flags s = Done flags' s' out
      /\ context_ok s'
      /\ measurement_unit s' = measurement_unit s
      /\ (pixels_per_mm s <> None -> pixels_per_mm s' <> None).
Proof.
  induction codes as [|[d t] codes IH]; intros flags s Hok; simpl.
  - exists flags, s, []. split; [reflexivity|].
    split; [exact Hok|]. split; [reflexivity | auto].
  - destruct (String.eqb (data d) CENTER_QR_DATA).
    + destruct (handle_center_ok s d t Hok)
        as [s1 [o1 [Hrun [Hok1 [Hu1 Hp1]]]]].
      destruct (IH (true, snd flags) s1 Hok1)
        as [flags' [s' [out [Hrest [Hok' [Hu' Hp']]]]]].
      exists flags', s'. eexists.
      split; [eapply bind_done; eassumption|].
      split; [exact Hok'|]. split; [congruence|].
      intros Hset. apply Hp'. rewrite Hp1. exact Hset.
    + destruct (String.eqb (data d) TARGET_QR_DATA).
      * destruct (track_target_ok Dual.get_status_color s d now Hok)
          as [s1 [o1 [Hrun [Hok1 [Hu1 [Hp1 _]]]]]].
        destruct (IH (fst flags, true) s1 Hok1)
          as [flags' [s' [out [Hrest [Hok' [Hu' Hp']]]]]].
        exists flags', s'. eexists.
        split; [eapply bind_done; eassumption|].
        split; [exact Hok'|]. split; [congruence | auto].
      * apply IH; assumption.
Qed.

Lemma manual_loop_body_ok (f : Manual.Frame) (s : Context) :
  context_ok s ->
  exists continue s' out,
    Manual.loop_body f s = Done continue s' out
    /\ context_ok s'
    /\ measurement_unit s' = measurement_unit s
    /\ (pixels_per_mm s <> None -> pixels_per_mm s' <> None).
Proof.
  intros Hok. assert (Hok0 := Hok). destruct Hok0 as [Hc [Hs Hh]].
  destruct (Manual.found_target_qr f) as [d|] eqn:Hfound.
  - destruct (manual_loop_body_present f s d Hc Hfound)
      as [s1 [out1 [s' [out [Ht [Hrun [Hppm [Hunit Hkey]]]]]]]].
    destruct (track_target_ok Manual.get_status_color s d
                (Manual.current_time f) Hok)
      as [s1' [out1' [Ht' [[Hc1 [Hs1 Hh1]] [Hu1 [Hp1 _]]]]]].
    rewrite Ht in Ht'. injection Ht' as <- <-.
    eexists. exists s', out. split; [exact Hrun|].
    split; [|split; [congruence | rewrite Hppm; exact Hp1]].
    split; [|split].
    + destruct (key_code (Manual.wait_key f) =? ord "c")%Z.
      * destruct Hkey as [Hcp _]. intros _. eexists. exact Hcp.
      * subst s'. exact Hc1.
    + unfold scale_positive. rewrite Hppm. exact Hs1.
    + destruct (key_code (Manual.wait_key f) =? ord "c")%Z.
      * destruct Hkey as [_ [_ [Hhist Hlast]]]. unfold history_ok.
        rewrite Hhist, Hlast. split; [simpl; lia | intros _; discriminate].
      * subst s'. exact Hh1.
  - destruct (manual_loop_body_absent f s Hc Hfound) as [out [Hrun _]].
    eexists. exists s, out. split; [exact Hrun|].
    split; [exact Hok|]. split; [reflexivity | auto].
Qed.

Lemma dual_loop_body_ok (f : Dual.Frame) (s : Context) :
  context_ok s ->
  exists continue s' out,
    Dual.loop_body f s = Done continue s' out
    /\ context_ok s'
    /\ measurement_unit s' = measurement_unit s
    /\ (pixels_per_mm s <> None -> pixels_per_mm s' <> None).
Proof.
  intros Hok.
  destruct (for_qr_codes_ok (Dual.current_time f) (Dual.qr_codes f)
              (false, false) s Hok)
    as [flags [s1 [o1 [Hloop [[Hc1 [Hs1 Hh1]] [Hu1 Hp1]]]]]].
  destruct (dual_keys_run f flags s1 Hc1)
    as [s' [o2 [Hrun [_ [Hppm [Hunit Hkey]]]]]].
  eexists. exists s'. eexists.
  split; [unfold Dual.loop_body; eapply bind_done; eassumption|].
  split; [|split; [congruence | rewrite Hppm; exact Hp1]].
  split; [|split].
  - destruct (key_code (Dual.wait_key f) =? ord "r")%Z.
    + destruct Hkey as [_ [Hset _]]. intros H. congruence.
    + subst s'. exact Hc1.
  - unfold scale_positive. rewrite Hppm. exact Hs1.
  - destruct (key_code (Dual.wait_key f) =? ord "r")%Z.
    + destruct Hkey as [_ [_ [Hhist _]]]. unfold history_ok. rewrite Hhist.
      split; [simpl; lia | intros H; contradiction].
    + subst s'. exact Hh1.
Qed.

Lemma manual_main_loop_ok (frames : list Manual.Frame) :
  forall s : Context,
    context_ok s ->
    exists s' out,
      Manual.main_loop frames s = Done tt s' out
      /\ context_ok s'
      /\ measurement_unit s' = measurement_unit s
      /\ (pixels_per_mm s <> None -> pixels_per_mm s' <> None).
Proof.
  induction frames as [|f frames IH]; intros s Hok; simpl.
  - exists s. eexists. split; [reflexivity|].
    split; [exact Hok|]. split; [reflexivity | auto].
  - destruct (manual_loop_body_ok f s Hok)
      as [continue [s1 [o1 [Hbody [Hok1 [Hu1 Hp1]]]]]].
    destruct continue.
    + destruct (IH s1 Hok1) as [s' [out [Hrun [Hok' [Hu' Hp']]]]].
      exists s'. eexists. split; [eapply bind_done; eassumption|].
      split; [exact Hok'|]. split; [congruence | auto].
    + exists s1. eexists.
      split; [eapply bind_done; [exact Hbody | reflexivity]|].
      split; [exact Hok1|]. split; assumption.
Qed.

Lemma dual_main_loop_ok (frames : list Dual.Frame) :
  forall s : Context,
    context_ok s ->
    exists s' out,
      Dual.main_loop frames s = Done tt s' out
      /\ context_ok s'
      /\ measurement_unit s' = measurement_unit s
      /\ (pixels_per_mm s <> None -> pixels_per_mm s' <> None).
Proof.
  induction frames as [|f frames IH]; intros s Hok; simpl.
  - exists s. eexists. split; [reflexivity|].
    split; [exact Hok|]. split; [reflexivity | auto].
  - destruct (dual_loop_body_ok f s Hok)
      as [continue [s1 [o1 [Hbody [Hok1 [Hu1 Hp1]]]]]].
    destruct continue.
    + destruct (IH s1 Hok1) as [s' [out [Hrun [Hok' [Hu' Hp']]]]].
      exists s'. eexists. split; [eapply bind_done; eassumption|].
      split; [exact Hok'|]. split; [congruence | auto].
    + exists s1. eexists.
      split; [eapply bind_done; [exact Hbody | reflexivity]|].
      split; [exact Hok1|]. split; assumption.
Qed.

Lemma initial_context_ok (unit_choice : string) :
  context_ok (initial_context unit_choice).
Proof.
  split; [|split; [|split]].
  - intros H. discriminate H.
  - intros ppm H. discriminate H.
  - simpl. lia.
  - intros H. contradiction.
Qed.

(** X2. Started as the scripts start, a run over any frames ends without an
    exception in either script: the reference is never subscripted while
    unset.  The display unit chosen at the start is still the unit at the
    end, and a reference that is flagged as set has its pixel. *)
Theorem runs_never_raise (unit_choice : string) :
  (forall frames : list Manual.Frame,
      exists s' out,
        Manual.main_loop frames (initial_context unit_choice) = Done tt s' out
        /\ measurement_unit s' = unit_choice
        /\ reference_consistent s')
  /\ (forall frames : list Dual.Frame,
        exists s' out,
          Dual.main_loop frames (initial_context unit_choice) = Done tt s' out
          /\ measurement_unit s' = unit_choice
          /\ reference_consistent s').
Proof.
  split; intros frames.
  - destruct (manual_main_loop_ok frames _ (initial_context_ok unit_choice))
      as [s' [out [Hrun [[Hc _] [Hu _]]]]].
    exists s', out. repeat split; assumption.
  - destruct (dual_main_loop_ok frames _ (initial_context_ok unit_choice))
      as [s' [out [Hrun [[Hc _] [Hu _]]]]].
    exists s', out. repeat split; assumption.
Qed.

(** X3. Started as the scripts start, after a run over any frames the
    history holds at most 100 samples, a non-empty history comes with a
    recorded movement time, and a stored scale is positive, in either
    script. *)
Theorem runs_keep_history_bounded (unit_choice : string) :
  (forall frames : list Manual.Frame,
      exists s' out,
        Manual.main_loop frames (initial_context unit_choice) = Done tt s' out
        /\ (length (position_history s') <= 100)%nat
        /\ (position_history s' <> [] -> last_movement_time s' <> None)
        /\ (forall ppm, pixels_per_mm s' = Some ppm -> 0 < ppm))
  /\ (forall frames : list Dual.Frame,
        exists s' out,
          Dual.main_loop frames (initial_context unit_choice) = Done tt s' out
          /\ (length (position_history s') <= 100)%nat
          /\ (position_history s' <> [] -> last_movement_time s' <> None)
          /\ (forall ppm, pixels_per_mm s' = Some ppm -> 0 < ppm)).
Proof.
  split; intros frames.
  - destruct (manual_main_loop_ok frames _ (initial_context_ok unit_choice))
      as [s' [out [Hrun [[_ [Hs [Hlen Hlast]]] _]]]].
    exists s', out. repeat split; assumption.
  - destruct (dual_main_loop_ok frames _ (initial_context_ok unit_choice))
      as [s' [out [Hrun [[_ [Hs [Hlen Hlast]]] _]]]].
    exists s', out. repeat split; assumption.
Qed.

(** X4. A calibration scale, once stored, is never lost: from a context
    with a scale, a run over any frames of either script (resets included)
    ends with a scale, and it is positive. *)
Theorem scale_is_never_lost (s : Context) (ppm : R) :
  context_ok s ->
  pixels_per_mm s = Some ppm ->
  (forall frames : list Manual.Frame,
      exists s' out ppm',
        Manual.main_loop frames s = Done tt s' out
        /\ pixels_per_mm s' = Some ppm' /\ 0 < ppm')
  /\ (forall frames : list Dual.Frame,
        exists s' out ppm',
          Dual.main_loop frames s = Done tt s' out
          /\ pixels_per_mm s' = Some ppm' /\ 0 < ppm').
Proof.
  intros Hok Hppm.
  assert (Hset : pixels_per_mm s <> None) by (rewrite Hppm; discriminate).
  split; intros frames.
  - destruct (manual_main_loop_ok frames s Hok)
      as [s' [out [Hrun [[_ [Hs _]] [_ Hp]]]]].
    destruct (pixels_per_mm s') as [ppm'|] eqn:E;
      [|exfalso; apply Hp; [exact Hset | reflexivity]].
    exists s', out, ppm'.
    split; [exact Hrun|]. split; [exact E | apply Hs; exact E].
  - destruct (dual_main_loop_ok frames s Hok)
      as [s' [out [Hrun [[_ [Hs _]] [_ Hp]]]]].
    destruct (pixels_per_mm s') as [ppm'|] eqn:E;
      [|exfalso; apply Hp; [exact Hset | reflexivity]].
    exists s', out, ppm'.
    split; [exact Hrun|]. split; [exact E | apply Hs; exact E].
Qed.

Lemma context_ok_sample : context_ok sample_context.
Proof.
  split; [exact reference_consistent_sample|].
  split; [exact scale_positive_sample|].
  split; [simpl; lia | intros H; contradiction].
Qed.

Lemma scale_is_never_lost_witness :
  context_ok sample_context
  /\ pixels_per_mm sample_context = Some 2
  /\ exists s' out ppm',
      Manual.main_loop [empty_frame_c; target_frame_c] sample_context
      = Done tt s' out
      /\ pixels_per_mm s' = Some ppm' /\ 0 < ppm'.
Proof.
  split; [exact context_ok_sample|]. split; [reflexivity|].
  apply (proj1 (scale_is_never_lost sample_context 2 context_ok_sample
                  eq_refl)).
Defined.

(** ** A target that does not move *)

Lemma sum_Z_constant (c : Z) (l : list Z) :
  Forall (fun x => x = c) l -> sum_Z l = (c * Z.of_nat (length l))%Z.
Proof.
  induction l as [|x l IH]; intros H.
  - simpl. unfold sum_Z. simpl. lia.
  - inversion H as [|? ? Hx Hl]; subst. rewrite sum_Z_cons, IH by assumption.
    simpl length. lia.
Qed.

Lemma avg_position_constant (p : pixel) (recent : list pixel) :
  recent <> [] -> Forall (fun q => q = p) recent ->
  avg_position recent = (IZR (fst p), IZR (snd p)).
Proof.
  intros Hne Hall.
  assert (Hn : INR (length recent) <> 0).
  { apply not_0_INR. destruct recent; [congruence | discriminate]. }
  unfold avg_position.
  rewrite (sum_Z_constant (fst p)), (sum_Z_constant (snd p)).
  - rewrite !length_map, !mult_IZR, <- !INR_IZR_INZ.
    apply f_equal2; unfold Rdiv;
      rewrite Rmult_assoc, Rinv_r by exact Hn; apply Rmult_1_r.
  - apply Forall_map. eapply Forall_impl; [|exact Hall].
    intros q ->. reflexivity.
  - apply Forall_map. eapply Forall_impl; [|exact Hall].
    intros q ->. reflexivity.
Qed.

Lemma recent_positions_stationary (p : pixel) (d : list (pixel * R))
  (now : R) :
  stationary p d -> Forall (fun q => q = p) (recent_positions d now).
Proof.
  intros Hst. unfold recent_positions. apply Forall_map.
  apply Forall_forall. intros smp Hin. apply filter_In in Hin.
  exact (proj1 (Forall_forall _ _) Hst smp (proj1 Hin)).
Qed.

Lemma distance_pixels_same (p : pixel) :
  distance_pixels p (IZR (fst p), IZR (snd p)) = 0.
Proof.
  unfold distance_pixels. simpl fst. simpl snd.
  replace ((IZR (fst p) - IZR (fst p)) ^ 2 + (IZR (snd p) - IZR (snd p)) ^ 2)
    with 0 by ring.
  apply sqrt_0.
Qed.

(** An update that detects no movement. *)
Lemma update_without_movement (s : Context) (cur : pixel) (now : R) :
  position_history s <> [] ->
  (forall ppm,
      pixels_per_mm s = Some ppm ->
      recent_positions (position_history s) now <> [] ->
      distance_pixels cur
        (avg_position (recent_positions (position_history s) now)) / ppm
      <= 2.5) ->
  exists s',
    update_position_history cur now s = Done tt s' []
    /\ last_movement_time s' = last_movement_time s.
Proof.
  intros Hne Hquiet. unfold update_position_history. unfold_monad.
  destruct (position_history s) as [|smp d] eqn:Hd; [congruence|].
  simpl length. simpl Nat.eqb. cbv iota.
  destruct (recent_positions (smp :: d) now) as [|r recent] eqn:Hrecent.
  - simpl. eexists. split; reflexivity.
  - destruct (pixels_per_mm s) as [ppm|] eqn:Hppm.
    + destruct (negb (Reqb ppm 0) && Rltb 0 ppm).
      * assert (Hle := Hquiet ppm eq_refl ltac:(discriminate)).
        unfold MOVEMENT_THRESHOLD_MM.
        replace (Rltb 2.5 _) with false
          by (symmetry; apply Rltb_false; exact Hle).
        simpl. eexists. split; reflexivity.
      * simpl. eexists. split; reflexivity.
    + simpl. eexists. split; reflexivity.
Qed.

Lemma update_stationary (s : Context) (p : pixel) (now : R) :
  stationary p (position_history s) ->
  exists s',
    update_position_history p now s = Done tt s' []
    /\ stationary p (position_history s')
    /\ position_history s' <> []
    /\ last_movement_time s'
       = match position_history s with
         | [] => Some now
         | _ :: _ => last_movement_time s
         end.
Proof.
  intros Hst.
  destruct (update_window s p now)
    as [s' [dropped [Hrun [Hwin [[kept Hkept] _]]]]].
  exists s'. split; [exact Hrun|]. split; [|split].
  - assert (Hall : stationary p (position_history s ++ [(p, now)])).
    { apply Forall_app. split; [exact Hst | repeat constructor]. }
    rewrite Hwin in Hall. apply Forall_app in Hall. exact (proj2 Hall).
  - rewrite Hkept. destruct kept; discriminate.
  - destruct (position_history s) as [|smp d] eqn:Hd.
    + rewrite (update_on_empty s p now Hd) in Hrun. injection Hrun as <-.
      reflexivity.
    + assert (Hne : position_history s <> []) by congruence.
      rewrite <- Hd in Hst.
      destruct (update_without_movement s p now Hne) as [s2 [Hrun2 Hlast]].
      * intros ppm _ Hrec.
        rewrite (avg_position_constant p) by
          (try exact Hrec; apply recent_positions_stationary; exact Hst).
        rewrite distance_pixels_same. unfold Rdiv. rewrite Rmult_0_l. lra.
      * rewrite Hrun in Hrun2. injection Hrun2 as <-. exact Hlast.
Qed.

(** X5. A target that has not moved is never taken to move: when every
    stored sample lies at the pixel of the new one, the update keeps
    [last_movement_time], whatever the scale and the timestamps, and the
    history still holds that pixel only. *)
Theorem unmoved_target_is_not_movement (s : Context) (p : pixel) (now : R) :
  position_history s <> [] ->
  stationary p (position_history s) ->
  exists s',
    update_position_history p now s = Done tt s' []
    /\ last_movement_time s' = last_movement_time s
    /\ stationary p (position_history s').
Proof.
  intros Hne Hst.
  destruct (update_stationary s p now Hst) as [s' [Hrun [Hst' [_ Hlast]]]].
  exists s'. split; [exact Hrun|]. split; [|exact Hst'].
  destruct (position_history s); [congruence | exact Hlast].
Qed.

Lemma unmoved_target_is_not_movement_witness :
  position_history moving_context <> []
  /\ stationary (0, 0)%Z (position_history moving_context)
  /\ exists s',
      update_position_history (0, 0)%Z 0.25 moving_context = Done tt s' []
      /\ last_movement_time s' = last_movement_time moving_context.
Proof.
  assert (Hne : position_history moving_context <> []) by discriminate.
  assert (Hst : stationary (0, 0)%Z (position_history moving_context))
    by (repeat constructor).
  split; [exact Hne|]. split; [exact Hst|].
  destruct (unmoved_target_is_not_movement moving_context (0, 0)%Z 0.25
              Hne Hst) as [s' [Hrun [Hlast _]]].
  exists s'. split; assumption.
Defined.

Lemma manual_frame_stationary (p : pixel) (f : Manual.Frame) (s : Context) :
  reference_consistent s ->
  shows_target_at p f ->
  key_code (Manual.wait_key f) <> ord "c" ->
  stationary p (position_history s) ->
  exists continue s' out,
    Manual.loop_body f s = Done continue s' out
    /\ reference_consistent s'
    /\ stationary p (position_history s')
    /\ position_history s' <> []
    /\ last_movement_time s'
       = match position_history s with
         | [] => Some (Manual.current_time f)
         | _ :: _ => last_movement_time s
         end.
Proof.
  intros Hc [d [Hfound Hcenter]] Hkey Hst.
  destruct (manual_loop_body_present f s d Hc Hfound)
    as [s1 [out1 [s' [out [Ht [Hrun [_ [_ Hk]]]]]]]].
  apply Z.eqb_neq in Hkey. rewrite Hkey in Hk. subst s'.
  destruct (track_target_run Manual.get_status_color s d
              (Manual.current_time f) Hc)
    as [s0 [s2 [out2 [Hcal [Hup Ht2]]]]].
  rewrite Ht in Ht2. injection Ht2 as <- <-.
  destruct (track_target_frame Manual.get_status_color s d
              (Manual.current_time f) Hc)
    as [s3 [out3 [Ht3 [Hcp [Hset _]]]]].
  rewrite Ht in Ht3. injection Ht3 as <- <-.
  rewrite calibrate_run in Hcal. injection Hcal as Hs0.
  assert (Hhist : position_history s0 = position_history s)
    by (rewrite <- Hs0; destruct (Rltb 0 (pixel_width d)); reflexivity).
  assert (Hlast : last_movement_time s0 = last_movement_time s)
    by (rewrite <- Hs0; destruct (Rltb 0 (pixel_width d)); reflexivity).
  rewrite Hcenter in Hup.
  destruct (update_stationary s0 p (Manual.current_time f))
    as [s4 [Hup4 [Hst' [Hne' Hlast']]]].
  { rewrite Hhist. exact Hst. }
  rewrite Hup in Hup4. injection Hup4 as <-.
  eexists. exists s1, out. split; [exact Hrun|].
  split; [unfold reference_consistent; rewrite Hcp, Hset; exact Hc|].
  split; [exact Hst'|]. split; [exact Hne'|].
  rewrite Hlast', Hhist, Hlast. reflexivity.
Qed.

Lemma manual_run_stationary (p : pixel) (t0 : R)
  (frames : list Manual.Frame) :
  forall s : Context,
    reference_consistent s ->
    position_history s <> [] ->
    stationary p (position_history s) ->
    last_movement_time s = Some t0 ->
    Forall (fun f => shows_target_at p f
                     /\ key_code (Manual.wait_key f) <> ord "c") frames ->
    exists s' out,
      Manual.main_loop frames s = Done tt s' out
      /\ last_movement_time s' = Some t0.
Proof.
  induction frames as [|f frames IH]; intros s Hc Hne Hst Hlast Hall; simpl.
  - exists s. eexists. split; [reflexivity | exact Hlast].
  - inversion Hall as [|? ? [Hshow Hkey] Hrest]; subst.
    destruct (manual_frame_stationary p f s Hc Hshow Hkey Hst)
      as [continue [s1 [o1 [Hbody [Hc1 [Hst1 [Hne1 Hlast1]]]]]]].
    assert (Hlast1' : last_movement_time s1 = Some t0).
    { rewrite Hlast1. destruct (position_history s); [congruence|].
      exact Hlast. }
    destruct continue.
    + destruct (IH s1 Hc1 Hne1 Hst1 Hlast1' Hrest) as [s' [out [Hrun Hl]]].
      exists s'. eexists. split; [eapply bind_done; eassumption | exact Hl].
    + exists s1. eexists.
      split; [eapply bind_done; [exact Hbody | reflexivity] | exact Hlast1'].
Qed.

(** X6. Manual mode, a target that appears and stays put: from an empty
    history, over frames that all show the target at one pixel and carry no
    [c] key, [last_movement_time] after the run is the time of the first
    frame; so the motion axis is MOVING until 1.0 after that frame and STILL
    from then on, whatever the scale and the frame times. *)
Theorem unmoved_target_turns_still (p : pixel) (f0 : Manual.Frame)
  (frames : list Manual.Frame) (s : Context) :
  reference_consistent s ->
  position_history s = [] ->
  Forall (fun f => shows_target_at p f
                   /\ key_code (Manual.wait_key f) <> ord "c")
    (f0 :: frames) ->
  exists s' out,
    Manual.main_loop (f0 :: frames) s = Done tt s' out
    /\ last_movement_time s' = Some (Manual.current_time f0)
    /\ (forall t, t - Manual.current_time f0 < 1.0 ->
                  is_qr_still t s' = Done false s' [])
    /\ (forall t, 1.0 <= t - Manual.current_time f0 ->
                  is_qr_still t s' = Done true s' []).
Proof.
  intros Hc Hempty Hall.
  inversion Hall as [|? ? [Hshow Hkey] Hrest]; subst.
  assert (Hst : stationary p (position_history s))
    by (rewrite Hempty; constructor).
  destruct (manual_frame_stationary p f0 s Hc Hshow Hkey Hst)
    as [continue [s1 [o1 [Hbody [Hc1 [Hst1 [Hne1 Hlast1]]]]]]].
  rewrite Hempty in Hlast1.
  assert (Hrun : exists s' out,
             Manual.main_loop (f0 :: frames) s = Done tt s' out
             /\ last_movement_time s' = Some (Manual.current_time f0)).
  { simpl. destruct continue.
    - destruct (manual_run_stationary p (Manual.current_time f0) frames s1
                  Hc1 Hne1 Hst1 Hlast1 Hrest) as [s' [out [Hrun Hl]]].
      exists s'. eexists. split; [eapply bind_done; eassumption | exact Hl].
    - exists s1. eexists.
      split; [eapply bind_done; [exact Hbody | reflexivity] | exact Hlast1]. }
  destruct Hrun as [s' [out [Hrun Hl]]].
  exists s', out. split; [exact Hrun|]. split; [exact Hl|].
  split; intros t Ht; rewrite is_qr_still_run, Hl;
    unfold STILL_TIME_THRESHOLD; real_tests; reflexivity.
Qed.

Lemma unmoved_target_turns_still_witness :
  reference_consistent (initial_context "mm")
  /\ position_history (initial_context "mm") = []
  /\ exists s' out,
      Manual.main_loop [still_frame 0; still_frame 0.5; still_frame 1.25]
        (initial_context "mm") = Done tt s' out
      /\ last_movement_time s' = Some 0
      /\ is_qr_still 1.25 s' = Done true s' [].
Proof.
  assert (Hc : reference_consistent (initial_context "mm"))
    by (intros H; discriminate H).
  assert (Hf : forall t, shows_target_at (320, 240)%Z (still_frame t)
                         /\ key_code (Manual.wait_key (still_frame t))
                            <> ord "c").
  { intros t. split.
    - eexists. split; reflexivity.
    - intros H. vm_compute in H. discriminate H. }
  split; [exact Hc|]. split; [reflexivity|].
  destruct (unmoved_target_turns_still (320, 240)%Z (still_frame 0)
              [still_frame 0.5; still_frame 1.25] (initial_context "mm")
              Hc eq_refl)
    as [s' [out [Hrun [Hlast [_ Hstill]]]]].
  { repeat (constructor; [apply Hf|]). constructor. }
  exists s', out. split; [exact Hrun|]. split; [exact Hlast|].
  apply Hstill. simpl. lra.
Defined.

(** ** Geometry of the displacement *)

Lemma calculate_displacement_active (s : Context) (cur ref : pixel)
  (ppm : R) :
  is_center_set s = true -> center_pixel s = Some ref ->
  pixels_per_mm s = Some ppm -> ppm <> 0 ->
  calculate_displacement cur s
  = Done (pixel_distance cur ref / ppm,
          IZR (fst cur - fst ref) / ppm,
          IZR (snd cur - snd ref) / ppm) s [].
Proof.
  intros Hset Href Hppm Hnz.
  unfold calculate_displacement, pixel_distance. unfold_monad.
  rewrite Hset, Hppm, Href. simpl.
  replace (Reqb ppm 0) with false by (symmetry; apply Reqb_false; exact Hnz).
  reflexivity.
Qed.

Lemma pixel_distance_sqr (a b : pixel) :
  pixel_distance a b * pixel_distance a b
  = IZR (fst a - fst b) ^ 2 + IZR (snd a - snd b) ^ 2.
Proof.
  unfold pixel_distance. rewrite IZR_sum_squares.
  apply sqrt_sqrt. nra.
Qed.

Lemma pixel_distance_nonneg (a b : pixel) : 0 <= pixel_distance a b.
Proof. unfold pixel_distance. apply sqrt_pos. Qed.

Lemma pixel_distance_zero (a b : pixel) :
  pixel_distance a b = 0 <-> a = b.
Proof.
  split.
  - intros H. assert (Hs := pixel_distance_sqr a b). rewrite H in Hs.
    assert (Hx : IZR (fst a - fst b) = 0) by nra.
    assert (Hy : IZR (snd a - snd b) = 0) by nra.
    apply eq_IZR_R0 in Hx. apply eq_IZR_R0 in Hy.
    destruct a as [ax ay], b as [bx b_y]. simpl in *. f_equal; lia.
  - intros ->. assert (Hs := pixel_distance_sqr b b).
    rewrite !Z.sub_diag in Hs. assert (Hn := pixel_distance_nonneg b b). nra.
Qed.

(** X7. In a context whose reference and scale are in order, the three
    numbers of [calculate_displacement] fit together: the total is not
    negative, its square is the sum of the squares of the two axis values,
    and neither axis value exceeds it in size. *)
Theorem displacement_is_a_norm (s : Context) (cur : pixel) :
  reference_consistent s -> scale_positive s ->
  exists total dx dy,
    calculate_displacement cur s = Done (total, dx, dy) s []
    /\ 0 <= total
    /\ total * total = dx * dx + dy * dy
    /\ Rabs dx <= total
    /\ Rabs dy <= total.
Proof.
  intros Hc Hs.
  assert (Hzero : 0 <= 0 /\ 0 * 0 = 0 * 0 + 0 * 0
                  /\ Rabs 0 <= 0 /\ Rabs 0 <= 0)
    by (rewrite Rabs_R0; lra).
  destruct (is_center_set s) eqn:Hset.
  - destruct (Hc Hset) as [ref Href].
    destruct (pixels_per_mm s) as [ppm|] eqn:Hppm.
    + assert (Hpos : 0 < ppm) by (apply Hs; exact Hppm).
      eexists. eexists. eexists.
      split; [apply (calculate_displacement_active s cur ref ppm);
              try assumption; lra|].
      assert (Hd := pixel_distance_nonneg cur ref).
      assert (Hsq := pixel_distance_sqr cur ref).
      set (D := pixel_distance cur ref) in *.
      set (a := IZR (fst cur - fst ref)) in *.
      set (b := IZR (snd cur - snd ref)) in *.
      assert (Hinv : 0 < / ppm) by (apply Rinv_0_lt_compat; exact Hpos).
      assert (Ht : 0 <= D / ppm) by (unfold Rdiv; nra).
      assert (Hsum : D / ppm * (D / ppm)
                     = a / ppm * (a / ppm) + b / ppm * (b / ppm)).
      { unfold Rdiv.
        replace (D * / ppm * (D * / ppm)) with (D * D * (/ ppm * / ppm))
          by ring.
        rewrite Hsq. ring. }
      split; [exact Ht|]. split; [exact Hsum|].
      split; apply Rabs_le; nra.
    + eexists. eexists. eexists. split; [|exact Hzero].
      unfold calculate_displacement. unfold_monad. rewrite Hset, Hppm.
      reflexivity.
  - eexists. eexists. eexists. split; [|exact Hzero].
    unfold calculate_displacement. unfold_monad. rewrite Hset. reflexivity.
Qed.

Lemma displacement_is_a_norm_witness :
  reference_consistent sample_context
  /\ scale_positive sample_context
  /\ exists total dx dy,
      calculate_displacement (6, 8)%Z sample_context
      = Done (total, dx, dy) sample_context []
      /\ 0 <= total /\ Rabs dx <= total.
Proof.
  split; [exact reference_consistent_sample|].
  split; [exact scale_positive_sample|].
  destruct (displacement_is_a_norm sample_context (6, 8)%Z
              reference_consistent_sample scale_positive_sample)
    as [total [dx [dy [Hrun [Hpos [_ [Hdx _]]]]]]].
  exists total, dx, dy. repeat split; assumption.
Defined.

(** X8. With a reference and a positive scale, the total displacement is
    the pixel distance from the reference divided by the scale.  So the
    target counts as centred exactly when it lies within 2.5 times the scale
    in pixels of the reference, and the total is zero exactly at the
    reference itself. *)
Theorem centred_in_pixels (s : Context) (cur ref : pixel) (ppm : R) :
  is_center_set s = true ->
  center_pixel s = Some ref ->
  pixels_per_mm s = Some ppm ->
  0 < ppm ->
  exists dx dy,
    calculate_displacement cur s
    = Done (pixel_distance cur ref / ppm, dx, dy) s []
    /\ (is_qr_centered (pixel_distance cur ref / ppm) = true
        <-> pixel_distance cur ref <= 2.5 * ppm)
    /\ (pixel_distance cur ref / ppm = 0 <-> cur = ref).
Proof.
  intros Hset Href Hppm Hpos. eexists. eexists.
  split; [apply calculate_displacement_active; try assumption; lra|].
  assert (Hinv : 0 < / ppm) by (apply Rinv_0_lt_compat; exact Hpos).
  split.
  - unfold is_qr_centered, MOVEMENT_THRESHOLD_MM. rewrite Rleb_true.
    split; intros H.
    + apply (Rmult_le_compat_r ppm) in H; [|lra].
      unfold Rdiv in H. rewrite Rmult_assoc, Rinv_l in H by lra. lra.
    + apply (Rmult_le_compat_r (/ ppm)) in H; [|lra].
      rewrite (Rmult_assoc 2.5), Rinv_r in H by lra. unfold Rdiv. lra.
  - rewrite <- pixel_distance_zero. split; intros H.
    + apply (f_equal (fun x => x * ppm)) in H.
      unfold Rdiv in H. rewrite Rmult_assoc, Rinv_l in H by lra. lra.
    + rewrite H. unfold Rdiv. apply Rmult_0_l.
Qed.

Lemma centred_in_pixels_witness :
  is_center_set sample_context = true
  /\ center_pixel sample_context = Some (0, 0)%Z
  /\ pixels_per_mm sample_context = Some 2
  /\ 0 < 2
  /\ (is_qr_centered (pixel_distance (6, 8)%Z (0, 0)%Z / 2) = true
      <-> pixel_distance (6, 8)%Z (0, 0)%Z <= 2.5 * 2).
Proof.
  assert (Hp : 0 < 2) by lra.
  repeat (split; [reflexivity || exact Hp|]).
  destruct (centred_in_pixels sample_context (6, 8)%Z (0, 0)%Z 2
              eq_refl eq_refl eq_refl Hp) as [dx [dy [_ [Hc _]]]].
  exact Hc.
Defined.

(** ** What is shown *)

(** X9. In both scripts the status colour is green exactly for a still and
    centred target and red exactly for a moving one, centred or not; the two
    scripts differ only for a still target off centre (orange in the manual
    script, yellow in the dual one). *)
Theorem status_colours (is_still is_centered : bool) :
  (Manual.get_status_color is_still is_centered = (0, 255, 0)%Z
   <-> is_still = true /\ is_centered = true)
  /\ (Manual.get_status_color is_still is_centered = (0, 0, 255)%Z
      <-> is_still = false)
  /\ (Dual.get_status_color is_still is_centered = (0, 255, 0)%Z
      <-> is_still = true /\ is_centered = true)
  /\ (Dual.get_status_color is_still is_centered = (0, 0, 255)%Z
      <-> is_still = false)
  /\ (Manual.get_status_color is_still is_centered
      = Dual.get_status_color is_still is_centered
      <-> ~ (is_still = true /\ is_centered = false)).
Proof.
  destruct is_still, is_centered; simpl;
    repeat split; intros; try discriminate; try reflexivity; try tauto;
    try (destruct H; discriminate); try (exfalso; apply H; tauto).
  all: intros [H1 H2]; discriminate.
Qed.

(** X10. While no reference is set, handling the target shows its outline
    and nothing else (no displacement, no status), yet it calibrates and
    records the sample as it always does. *)
Theorem no_reference_no_readout (col : bool -> bool -> color) (s : Context)
  (d : Detection) (now : R) :
  is_center_set s = false ->
  exists s1 s',
    calibrate (pixel_width d) s = Done tt s1 []
    /\ update_position_history (center d) now s1 = Done tt s' []
    /\ track_target col d now s = Done tt s' [DrawTarget (center d)]
    /\ is_center_set s' = false.
Proof.
  intros Hunset.
  destruct (update_position_history_run
              (if Rltb 0 (pixel_width d)
               then mkContext (center_pixel s) (is_center_set s)
                      (Some (pixel_width d / (KNOWN_QR_CODE_WIDTH_CM * 10)))
                      (measurement_unit s) (position_history s)
                      (last_movement_time s)
               else s) (center d) now)
    as [s' [Hup [_ [Hset _]]]].
  assert (Hset' : is_center_set s' = false)
    by (rewrite Hset; destruct (Rltb 0 (pixel_width d)); exact Hunset).
  eexists. exists s'. split; [apply calibrate_run|]. split; [exact Hup|].
  split; [|exact Hset'].
  unfold track_target.
  change [DrawTarget (center d)] with ([] ++ [] ++ [DrawTarget (center d)] ++ [] ++ []).
  eapply bind_done; [apply calibrate_run|].
  eapply bind_done; [exact Hup|].
  eapply bind_done; [reflexivity|].
  eapply bind_done; [reflexivity|].
  simpl. rewrite Hset'. reflexivity.
Qed.

Lemma no_reference_no_readout_witness :
  is_center_set (initial_context "mm") = false
  /\ exists s',
      track_target Manual.get_status_color
        (mkDetection TARGET_QR_DATA (320, 240)%Z 200) 7 (initial_context "mm")
      = Done tt s' [DrawTarget (320, 240)%Z].
Proof.
  split; [reflexivity|].
  destruct (no_reference_no_readout Manual.get_status_color
              (initial_context "mm")
              (mkDetection TARGET_QR_DATA (320, 240)%Z 200) 7 eq_refl)
    as [s1 [s' [_ [_ [Hrun _]]]]].
  exists s'. exact Hrun.
Defined.

(** X11. The display unit changes the numbers of the readout and nothing
    else: under [cm] the report of a target is the report under [mm] with
    the axis values and the total divided by 10 and labelled [cm]; the
    status label, its colour, the still time and the context are the
    same. *)
Theorem unit_only_scales_readout (col : bool -> bool -> color) (s : Context)
  (cur : pixel) (now : R) :
  reference_consistent s -> is_center_set s = true ->
  exists out,
    report_target col cur now (with_unit "mm" s)
    = Done tt (with_unit "mm" s) out
    /\ report_target col cur now (with_unit "cm" s)
       = Done tt (with_unit "cm" s) (map to_cm out).
Proof.
  intros Hc Hset. destruct (Hc Hset) as [ref Href].
  unfold report_target, calculate_displacement, convert_to_display_units,
    get_unit_label, is_qr_still, with_unit.
  unfold_monad. simpl. rewrite Hset, Href. simpl.
  destruct (pixels_per_mm s) as [ppm|]; simpl;
    [destruct (Reqb ppm 0); simpl|];
    repeat match goal with
      | |- context [Rltb ?a ?b] => destruct (Rltb a b); simpl
      end;
    destruct (last_movement_time s); simpl;
    eexists; split; reflexivity.
Qed.

Lemma unit_only_scales_readout_witness :
  reference_consistent sample_context
  /\ is_center_set sample_context = true
  /\ exists out,
      report_target Manual.get_status_color (6, 8)%Z 3
        (with_unit "mm" sample_context)
      = Done tt (with_unit "mm" sample_context) out
      /\ report_target Manual.get_status_color (6, 8)%Z 3
           (with_unit "cm" sample_context)
         = Done tt (with_unit "cm" sample_context) (map to_cm out).
Proof.
  split; [exact reference_consistent_sample|]. split; [reflexivity|].
  apply (unit_only_scales_readout Manual.get_status_color sample_context
           (6, 8)%Z 3 reference_consistent_sample eq_refl).
Defined.

(** ** Keys *)

Lemma manual_frame_keeps_reference (f : Manual.Frame) (s : Context) :
  reference_consistent s ->
  key_code (Manual.wait_key f) <> ord "c" ->
  exists continue s' out,
    Manual.loop_body f s = Done continue s' out
    /\ center_pixel s' = center_pixel s
    /\ is_center_set s' = is_center_set s.
Proof.
  intros Hc Hkey. apply Z.eqb_neq in Hkey.
  destruct (Manual.found_target_qr f) as [d|] eqn:Hfound.
  - destruct (manual_loop_body_present f s d Hc Hfound)
      as [s1 [out1 [s' [out [Ht [Hrun [_ [_ Hk]]]]]]]].
    rewrite Hkey in Hk. subst s'.
    destruct (track_target_frame Manual.get_status_color s d
                (Manual.current_time f) Hc)
      as [s2 [out2 [Ht2 [Hcp [Hset _]]]]].
    rewrite Ht in Ht2. injection Ht2 as <- <-.
    eexists. exists s1, out. split; [exact Hrun | split; assumption].
  - destruct (manual_loop_body_absent f s Hc Hfound) as [out [Hrun _]].
    eexists. exists s, out. split; [exact Hrun | split; reflexivity].
Qed.

(** X12. In manual mode only the [c] key moves the reference: over any
    run of frames without that key, whatever they show, the reference pixel
    and its flag stay as they were. *)
Theorem manual_reference_needs_key (frames : list Manual.Frame) :
  forall s : Context,
    reference_consistent s ->
    Forall (fun f => key_code (Manual.wait_key f) <> ord "c") frames ->
    exists s' out,
      Manual.main_loop frames s = Done tt s' out
      /\ center_pixel s' = center_pixel s
      /\ is_center_set s' = is_center_set s.
Proof.
  induction frames as [|f frames IH]; intros s Hc Hall; simpl.
  - exists s. eexists. split; [reflexivity | split; reflexivity].
  - inversion Hall as [|? ? Hkey Hrest]; subst.
    destruct (manual_frame_keeps_reference f s Hc Hkey)
      as [continue [s1 [o1 [Hbody [Hcp Hset]]]]].
    assert (Hc1 : reference_consistent s1)
      by (unfold reference_consistent; rewrite Hcp, Hset; exact Hc).
    destruct continue.
    + destruct (IH s1 Hc1 Hrest) as [s' [out [Hrun [Hcp' Hset']]]].
      exists s'. eexists. split; [eapply bind_done; eassumption|].
      split; congruence.
    + exists s1. eexists.
      split; [eapply bind_done; [exact Hbody | reflexivity]|].
      split; assumption.
Qed.

Lemma manual_reference_needs_key_witness :
  reference_consistent sample_context
  /\ Forall (fun f => key_code (Manual.wait_key f) <> ord "c")
       [still_frame 1; still_frame 2]
  /\ exists s' out,
      Manual.main_loop [still_frame 1; still_frame 2] sample_context
      = Done tt s' out
      /\ center_pixel s' = center_pixel sample_context.
Proof.
  assert (Hk : Forall (fun f => key_code (Manual.wait_key f) <> ord "c")
                 [still_frame 1; still_frame 2]).
  { repeat (constructor; [intros H; vm_compute in H; discriminate H|]).
    constructor. }
  split; [exact reference_consistent_sample|]. split; [exact Hk|].
  destruct (manual_reference_needs_key [still_frame 1; still_frame 2]
              sample_context reference_consistent_sample Hk)
    as [s' [out [Hrun [Hcp _]]]].
  exists s', out. split; assumption.
Defined.

(** X13. The [q] key ends the loop in both scripts: the frame it comes
    with is still handled, and whatever frames would follow, the run ends
    with the context and the output of that frame. *)
Theorem quit_key_stops_the_loop :
  (forall (f : Manual.Frame) (s : Context),
      context_ok s ->
      key_code (Manual.wait_key f) = ord "q" ->
      exists s' out,
        Manual.loop_body f s = Done false s' out
        /\ forall rest, Manual.main_loop (f :: rest) s = Done tt s' out)
  /\ (forall (f : Dual.Frame) (s : Context),
        context_ok s ->
        key_code (Dual.wait_key f) = ord "q" ->
        exists s' out,
          Dual.loop_body f s = Done false s' out
          /\ forall rest, Dual.main_loop (f :: rest) s = Done tt s' out).
Proof.
  split; intros f s Hok Hkey.
  - destruct (manual_loop_body_ok f s Hok) as [continue [s' [out [Hbody _]]]].
    assert (Hstop : continue = false).
    { assert (Hc : reference_consistent s) by apply Hok.
      destruct (Manual.found_target_qr f) as [d|] eqn:Hfound.
      - destruct (manual_loop_body_present f s d Hc Hfound)
          as [s1 [o1 [s2 [o2 [_ [Hrun _]]]]]].
        rewrite Hbody, Hkey in Hrun. injection Hrun as -> _ _. reflexivity.
      - destruct (manual_loop_body_absent f s Hc Hfound) as [o2 [Hrun _]].
        rewrite Hbody, Hkey in Hrun. injection Hrun as -> _ _. reflexivity. }
    subst continue. exists s', out. split; [exact Hbody|].
    intros rest. simpl. unfold bind. rewrite Hbody. unfold ret.
    rewrite app_nil_r. reflexivity.
  - destruct (for_qr_codes_ok (Dual.current_time f) (Dual.qr_codes f)
                (false, false) s Hok)
      as [flags [s1 [o1 [Hloop [[Hc1 _] _]]]]].
    destruct (dual_loop_body_run f s
                (ex_intro _ flags (ex_intro _ s1 (ex_intro _ o1
                   (conj Hloop Hc1)))))
      as [flags' [s1' [o1' [s' [o2 [_ [Hbody _]]]]]]].
    rewrite Hkey in Hbody. simpl in Hbody.
    exists s'. eexists. split; [exact Hbody|].
    intros rest. simpl. unfold bind. rewrite Hbody. unfold ret.
    rewrite app_nil_r. reflexivity.
Qed.

Lemma quit_key_stops_the_loop_witness :
  context_ok sample_context
  /\ key_code (Manual.wait_key quit_frame) = ord "q"
  /\ exists s' out,
      Manual.main_loop [quit_frame; target_frame_c] sample_context
      = Done tt s' out
      /\ Manual.loop_body quit_frame sample_context = Done false s' out.
Proof.
  split; [exact context_ok_sample|]. split; [reflexivity|].
  destruct (proj1 quit_key_stops_the_loop quit_frame sample_context
              context_ok_sample eq_refl) as [s' [out [Hbody Hrun]]].
  exists s', out. split; [apply Hrun | exact Hbody].
Defined.

(** X14. Dual mode, the [r] key: whatever the frame shows, after it no
    reference is stored, the history is empty and no movement time is
    recorded; the displacement is then [(0, 0, 0)], the motion axis is
    MOVING, and the next centre code seen becomes the reference wherever it
    lies. *)
Theorem reset_key_clears_tracking (f : Dual.Frame) (s : Context) :
  context_ok s ->
  key_code (Dual.wait_key f) = ord "r" ->
  exists s' out,
    Dual.loop_body f s = Done true s' out
    /\ center_pixel s' = None
    /\ is_center_set s' = false
    /\ position_history s' = []
    /\ last_movement_time s' = None
    /\ (forall cur, calculate_displacement cur s' = Done (0, 0, 0) s' [])
    /\ (forall t, is_qr_still t s' = Done false s' [])
    /\ (forall d now,
          exists s2 out2,
            Dual.handle_center d now s' = Done tt s2 out2
            /\ center_pixel s2 = Some (center d)
            /\ is_center_set s2 = true).
Proof.
  intros Hok Hkey.
  destruct (for_qr_codes_ok (Dual.current_time f) (Dual.qr_codes f)
              (false, false) s Hok)
    as [flags [s1 [o1 [Hloop [[Hc1 _] _]]]]].
  destruct (dual_loop_body_run f s
              (ex_intro _ flags (ex_intro _ s1 (ex_intro _ o1
                 (conj Hloop Hc1)))))
    as [flags' [s1' [o1' [s' [o2 [_ [Hbody [_ [_ Hk]]]]]]]]].
  rewrite Hkey in Hbody, Hk. simpl in Hbody, Hk.
  destruct Hk as [Hcp [Hset [Hhist Hlast]]].
  exists s'. eexists. split; [exact Hbody|].
  repeat (split; [assumption|]). split; [|split].
  - intros cur. unfold calculate_displacement. unfold_monad.
    rewrite Hset. reflexivity.
  - intros t. rewrite is_qr_still_run, Hlast. reflexivity.
  - intros d now. eexists. eexists. split.
    + apply handle_center_far.
      * intros H. congruence.
      * left. exact Hset.
    + split; reflexivity.
Qed.

Lemma context_ok_stored : context_ok stored_context.
Proof.
  split; [exact stored_context_consistent|].
  split; [intros ppm H; discriminate H|].
  split; [simpl; unfold history_maxlen; lia | intros _; discriminate].
Qed.

Lemma reset_key_clears_tracking_witness :
  context_ok stored_context
  /\ key_code (Dual.wait_key reset_frame) = ord "r"
  /\ exists s' out,
      Dual.loop_body reset_frame stored_context = Done true s' out
      /\ center_pixel s' = None
      /\ position_history s' = [].
Proof.
  split; [exact context_ok_stored|]. split; [reflexivity|].
  destruct (reset_key_clears_tracking reset_frame stored_context
              context_ok_stored eq_refl)
    as [s' [out [Hrun [Hcp [_ [Hhist _]]]]]].
  exists s', out. repeat split; assumption.
Defined.

(** ** Detected codes *)

Lemma astype_int_near (x : R) :
  Rabs (IZR (astype_int x) - x) < 1
  /\ Rabs (IZR (astype_int x)) <= Rabs x
  /\ 0 <= IZR (astype_int x) * x.
Proof.
  unfold astype_int. destruct (Rle_dec 0 x) as [Hx | Hx].
  - destruct (base_Int_part x) as [Hle Hgt].
    assert (Hk : (0 <= Int_part x)%Z).
    { apply Z.lt_succ_r, lt_IZR. rewrite succ_IZR. lra. }
    apply IZR_le in Hk. split; [|split].
    + apply Rabs_def1; lra.
    + rewrite !Rabs_pos_eq by lra. exact Hle.
    + apply Rmult_le_pos; assumption.
  - destruct (base_Int_part (- x)) as [Hle Hgt].
    assert (Hk : (0 <= Int_part (- x))%Z).
    { apply Z.lt_succ_r, lt_IZR. rewrite succ_IZR. lra. }
    apply IZR_le in Hk. rewrite opp_IZR. split; [|split].
    + apply Rabs_def1; lra.
    + rewrite Rabs_Ropp, (Rabs_pos_eq (IZR _)) by lra.
      rewrite Rabs_left by lra. exact Hle.
    + nra.
Qed.

Lemma edge_norm_zero (bbox : list (R * R)) :
  0 <= edge_norm bbox
  /\ (edge_norm bbox = 0 <-> nth 0 bbox (0, 0) = nth 1 bbox (0, 0)).
Proof.
  unfold edge_norm. cbv zeta.
  destruct (nth 0 bbox (0, 0)) as [x0 y0], (nth 1 bbox (0, 0)) as [x1 y1].
  simpl fst. simpl snd. split; [apply sqrt_pos|]. split.
  - intros H.
    apply sqrt_eq_0 in H;
      [|apply Rplus_le_le_0_compat; apply pow2_ge_0].
    rewrite <- !Rsqr_pow2 in H. apply Rplus_sqr_eq_0 in H.
    destruct H as [Hx Hy]. f_equal; lra.
  - intros H. injection H as -> ->.
    replace ((x1 - x1) ^ 2 + (y1 - y1) ^ 2) with 0 by ring. apply sqrt_0.
Qed.

Lemma flat_map_at_most_one {A B} (f : A -> list B) (l : list A) :
  (forall x, (length (f x) <= 1)%nat) ->
  (length (flat_map f l) <= length l)%nat.
Proof.
  intros Hf. induction l as [|x l IH]; simpl; [lia|].
  rewrite length_app. specialize (Hf x). lia.
Qed.

Lemma detect_qr_codes_In (np_mean : list (R * R) -> R * R)
  (success : bool) (decoded_info : list string)
  (points : list (list (R * R))) (d : Detection) :
  In d (detect_qr_codes np_mean success decoded_info points)
  <-> success = true
      /\ exists bbox,
          In (data d, bbox) (combine decoded_info points)
          /\ valid_code (data d) bbox = true
          /\ d = mkDetection (data d)
                   (astype_int (fst (np_mean bbox)),
                    astype_int (snd (np_mean bbox)))
                   (edge_norm bbox).
Proof.
  unfold detect_qr_codes. split.
  - intros Hin. destruct success; [|destruct Hin].
    split; [reflexivity|].
    destruct (length decoded_info =? 0)%nat; [destruct Hin|]. simpl in Hin.
    apply in_flat_map in Hin. destruct Hin as [[payload bbox] [Hzip Hd]].
    destruct (valid_code payload bbox) eqn:Hv; [|destruct Hd].
    destruct Hd as [<- | []]. simpl. exists bbox. repeat split; assumption.
  - intros [-> [bbox [Hzip [Hv Hd]]]].
    assert (Hlen : (length decoded_info =? 0)%nat = false).
    { destruct decoded_info; [destruct Hzip | reflexivity]. }
    rewrite Hlen. simpl. apply in_flat_map. exists (data d, bbox).
    split; [exact Hzip|]. rewrite Hv. left. symmetry. exact Hd.
Qed.

(** X15. Whatever mean numpy returns for a box, [detect_qr_codes] returns
    exactly the decoded entries that have a non-empty payload and at least
    four corners, when the detector reports success, and nothing otherwise;
    so it never returns more codes than payloads were decoded, and none
    with an empty payload. *)
Theorem detect_qr_codes_filters (np_mean : list (R * R) -> R * R)
  (success : bool) (decoded_info : list string)
  (points : list (list (R * R))) :
  (forall d,
      In d (detect_qr_codes np_mean success decoded_info points)
      <-> success = true
          /\ exists bbox,
              In (data d, bbox) (combine decoded_info points)
              /\ data d <> ""
              /\ (4 <= length bbox)%nat
              /\ d = mkDetection (data d)
                       (astype_int (fst (np_mean bbox)),
                        astype_int (snd (np_mean bbox)))
                       (edge_norm bbox))
  /\ (length (detect_qr_codes np_mean success decoded_info points)
      <= length decoded_info)%nat
  /\ detect_qr_codes np_mean false decoded_info points = []
  /\ detect_qr_codes np_mean success [] points = [].
Proof.
  split; [|split; [|split]].
  - intros d. rewrite detect_qr_codes_In. unfold valid_code.
    split; intros [Hs [bbox [Hzip H]]]; (split; [exact Hs|]); exists bbox;
      (split; [exact Hzip|]).
    + destruct H as [Hv Hd]. apply andb_true_iff in Hv.
      destruct Hv as [Hdata Hlen].
      split; [|split; [apply Nat.leb_le; exact Hlen | exact Hd]].
      apply negb_true_iff, String.eqb_neq in Hdata. exact Hdata.
    + destruct H as [Hdata [Hlen Hd]]. split; [|exact Hd].
      apply andb_true_iff. split; [|apply Nat.leb_le; exact Hlen].
      apply negb_true_iff, String.eqb_neq. exact Hdata.
  - unfold detect_qr_codes.
    destruct (success && negb (length decoded_info =? 0)%nat); [|simpl; lia].
    eapply Nat.le_trans; [apply flat_map_at_most_one|].
    + intros [payload bbox]. destruct (valid_code payload bbox); simpl; lia.
    + rewrite length_combine. lia.
  - reflexivity.
  - unfold detect_qr_codes. destruct success; reflexivity.
Qed.

(** X16. Every code [detect_qr_codes] returns comes from a decoded box
    with at least four corners.  Its pixel width is the Euclidean length of
    the edge between the first two corners of that box: not negative, and
    zero exactly when the two corners coincide.  Its centre is the mean
    numpy returns for the box with the fraction dropped: each coordinate is
    that integer which lies less than one from the coordinate of the mean,
    on the side of zero. *)
Theorem detected_code_geometry (np_mean : list (R * R) -> R * R)
  (success : bool) (decoded_info : list string)
  (points : list (list (R * R))) (d : Detection) :
  In d (detect_qr_codes np_mean success decoded_info points) ->
  exists bbox x0 y0 x1 y1 rest,
    In (data d, bbox) (combine decoded_info points)
    /\ bbox = (x0, y0) :: (x1, y1) :: rest
    /\ (2 <= length rest)%nat
    /\ pixel_width d = sqrt ((x0 - x1) ^ 2 + (y0 - y1) ^ 2)
    /\ 0 <= pixel_width d
    /\ (pixel_width d = 0 <-> (x0, y0) = (x1, y1))
    /\ Rabs (IZR (fst (center d)) - fst (np_mean bbox)) < 1
    /\ Rabs (IZR (snd (center d)) - snd (np_mean bbox)) < 1
    /\ Rabs (IZR (fst (center d))) <= Rabs (fst (np_mean bbox))
    /\ Rabs (IZR (snd (center d))) <= Rabs (snd (np_mean bbox))
    /\ 0 <= IZR (fst (center d)) * fst (np_mean bbox)
    /\ 0 <= IZR (snd (center d)) * snd (np_mean bbox).
Proof.
  intros Hin. apply detect_qr_codes_In in Hin.
  destruct Hin as [_ [bbox [Hzip [Hv Hd]]]].
  unfold valid_code in Hv. apply andb_true_iff in Hv.
  destruct Hv as [_ Hlen]. apply Nat.leb_le in Hlen.
  destruct bbox as [|[x0 y0] [|[x1 y1] rest]]; simpl in Hlen; try lia.
  destruct (edge_norm_zero ((x0, y0) :: (x1, y1) :: rest)) as [Hpos Hzero].
  destruct (astype_int_near (fst (np_mean ((x0, y0) :: (x1, y1) :: rest))))
    as [Hx1 [Hx2 Hx3]].
  destruct (astype_int_near (snd (np_mean ((x0, y0) :: (x1, y1) :: rest))))
    as [Hy1 [Hy2 Hy3]].
  exists ((x0, y0) :: (x1, y1) :: rest), x0, y0, x1, y1, rest.
  split; [exact Hzip|]. split; [reflexivity|]. split; [lia|].
  rewrite Hd. simpl pixel_width. simpl center. simpl fst. simpl snd.
  split; [reflexivity|]. split; [exact Hpos|]. split; [exact Hzero|].
  repeat split; assumption.
Qed.

Lemma detected_code_geometry_witness :
  exists d,
    In d (detect_qr_codes sample_mean true [TARGET_QR_DATA] [square_box])
    /\ center d = (20, 20)%Z
    /\ exists bbox x0 y0 x1 y1 rest,
        bbox = (x0, y0) :: (x1, y1) :: rest
        /\ pixel_width d = sqrt ((x0 - x1) ^ 2 + (y0 - y1) ^ 2)
        /\ Rabs (IZR (snd (center d)) - snd (sample_mean bbox)) < 1.
Proof.
  assert (Hin : In (mkDetection TARGET_QR_DATA
                      (astype_int 20, astype_int 20.25)
                      (edge_norm square_box))
                  (detect_qr_codes sample_mean true [TARGET_QR_DATA]
                     [square_box]))
    by (left; reflexivity).
  eexists. split; [exact Hin|]. split.
  - simpl. f_equal.
    + unfold astype_int. destruct (Rle_dec 0 20); [|exfalso; lra].
      symmetry. apply Int_part_spec. lra.
    + unfold astype_int. destruct (Rle_dec 0 20.25); [|exfalso; lra].
      symmetry. apply Int_part_spec. lra.
  - destruct (detected_code_geometry sample_mean true [TARGET_QR_DATA]
                [square_box] _ Hin)
      as [bbox [x0 [y0 [x1 [y1 [rest
            [_ [Hb [_ [Hw [_ [_ [_ [Hy _]]]]]]]]]]]]]].
    exists bbox, x0, y0, x1, y1, rest. repeat split; assumption.
Defined.

(** ** Ages over whole frames *)

Lemma track_target_window (col : bool -> bool -> color) (s : Context)
  (d : Detection) (now : R) :
  reference_consistent s ->
  chronological (position_history s) now ->
  exists s' out,
    track_target col d now s = Done tt s' out
    /\ reference_consistent s'
    /\ chronological (position_history s') now
    /\ fresh now (position_history s').
Proof.
  intros Hc Hchron.
  destruct (track_target_run col s d now Hc)
    as [s1 [s' [out [Hcal [Hup Hrun]]]]].
  destruct (track_target_frame col s d now Hc)
    as [s2 [out2 [Hrun2 [Hcp [Hset _]]]]].
  rewrite Hrun in Hrun2. injection Hrun2 as <- <-.
  rewrite calibrate_run in Hcal. injection Hcal as Hs1.
  assert (Hhist : position_history s1 = position_history s)
    by (rewrite <- Hs1; destruct (Rltb 0 (pixel_width d)); reflexivity).
  destruct (update_history_shape s1 (center d) now) as [s3 [Hup3 Hshape]].
  rewrite Hup in Hup3. injection Hup3 as <-.
  exists s', out. split; [exact Hrun|].
  split; [unfold reference_consistent; rewrite Hcp, Hset; exact Hc|].
  rewrite Hshape, Hhist.
  apply evict_old_chronological, chronological_append. exact Hchron.
Qed.

Lemma for_qr_codes_window (now : R) (codes : list (Detection * R)) :
  forall (flags : bool * bool) (s : Context),
    reference_consistent s ->
    chronological (position_history s) now ->
    (snd flags = true -> fresh now (position_history s)) ->
    exists flags' s' out,
      Dual.for_qr_codes now codes flags s = Done flags' s' out
      /\ reference_consistent s'
      /\ chronological (position_history s') now
      /\ (snd flags' = true -> fresh now (position_history s'))
      /\ (snd flags = true
          \/ Exists (fun c => data (fst c) = TARGET_QR_DATA) codes ->
          snd flags' = true).
Proof.
  induction codes as [|[d t] codes IH]; intros flags s Hc Hchron Hfresh;
    simpl.
  - exists flags, s, []. repeat split; try assumption.
    intros [H | H]; [exact H | inversion H].
  - destruct (String.eqb (data d) CENTER_QR_DATA) eqn:Ec.
    + assert (Hstep : exists s1 o1,
                 Dual.handle_center d t s = Done tt s1 o1
                 /\ reference_consistent s1
                 /\ chronological (position_history s1) now
                 /\ (snd flags = true -> fresh now (position_history s1))).
      { destruct (near_or_reacquires s (center d) Hc) as [Hn | Hf].
        - exists s. eexists. split; [apply handle_center_near; exact Hn|].
          repeat split; assumption.
        - eexists. eexists. split; [apply handle_center_far; assumption|].
          split; [intros _; exists (center d); reflexivity|].
          split; [exact I | intros _; constructor]. }
      destruct Hstep as [s1 [o1 [Hrun [Hc1 [Hchron1 Hfresh1]]]]].
      destruct (IH (true, snd flags) s1 Hc1 Hchron1 Hfresh1)
        as [flags' [s' [out [Hrest [Hc' [Hchron' [Hfresh' Hseen]]]]]]].
      exists flags', s'. eexists.
      split; [eapply bind_done; eassumption|].
      repeat split; try assumption.
      intros [Hflag | Hex]; [apply Hseen; left; exact Hflag|].
      inversion Hex as [? ? Hd | ? ? Hl]; subst.
      * simpl in Hd. rewrite Hd in Ec. discriminate Ec.
      * apply Hseen. right. exact Hl.
    + destruct (String.eqb (data d) TARGET_QR_DATA) eqn:Et.
      * destruct (track_target_window Dual.get_status_color s d now
                    Hc Hchron)
          as [s1 [o1 [Hrun [Hc1 [Hchron1 Hfresh1]]]]].
        destruct (IH (fst flags, true) s1 Hc1 Hchron1 (fun _ => Hfresh1))
          as [flags' [s' [out [Hrest [Hc' [Hchron' [Hfresh' Hseen]]]]]]].
        exists flags', s'. eexists.
        split; [eapply bind_done; eassumption|].
        repeat split; try assumption.
        intros _. apply Hseen. left. reflexivity.
      * destruct (IH flags s Hc Hchron Hfresh)
          as [flags' [s' [out [Hrest [Hc' [Hchron' [Hfresh' Hseen]]]]]]].
        exists flags', s', out. repeat split; try assumption.
        intros [Hflag | Hex]; [apply Hseen; left; exact Hflag|].
        inversion Hex as [? ? Hd | ? ? Hl]; subst.
        -- simpl in Hd. apply String.eqb_neq in Et. contradiction.
        -- apply Hseen. right. exact Hl.
Qed.

Lemma manual_frame_window (f : Manual.Frame) (s : Context) :
  reference_consistent s ->
  chronological (position_history s) (Manual.current_time f) ->
  exists continue s' out,
    Manual.loop_body f s = Done continue s' out
    /\ reference_consistent s'
    /\ chronological (position_history s') (Manual.current_time f)
    /\ (Manual.found_target_qr f <> None ->
        fresh (Manual.current_time f) (position_history s')).
Proof.
  intros Hc Hchron.
  destruct (Manual.found_target_qr f) as [d|] eqn:Hfound.
  - destruct (manual_loop_body_present f s d Hc Hfound)
      as [s1 [out1 [s' [out [Ht [Hrun [_ [_ Hk]]]]]]]].
    destruct (track_target_window Manual.get_status_color s d
                (Manual.current_time f) Hc Hchron)
      as [s2 [out2 [Ht2 [Hc1 [Hchron1 Hfresh1]]]]].
    rewrite Ht in Ht2. injection Ht2 as <- <-.
    eexists. exists s', out. split; [exact Hrun|].
    destruct (key_code (Manual.wait_key f) =? ord "c")%Z.
    + destruct Hk as [Hcp [_ [Hhist _]]]. rewrite Hhist.
      split; [intros _; eexists; exact Hcp|].
      split; [exact I | intros _; constructor].
    + subst s'.
      split; [exact Hc1 | split; [exact Hchron1 | intros _; exact Hfresh1]].
  - destruct (manual_loop_body_absent f s Hc Hfound) as [out [Hrun _]].
    eexists. exists s, out. split; [exact Hrun|].
    split; [exact Hc | split; [exact Hchron | intros H; contradiction]].
Qed.

Lemma dual_frame_window (f : Dual.Frame) (s : Context) :
  reference_consistent s ->
  chronological (position_history s) (Dual.current_time f) ->
  exists continue s' out,
    Dual.loop_body f s = Done continue s' out
    /\ reference_consistent s'
    /\ chronological (position_history s') (Dual.current_time f)
    /\ (Exists (fun c => data (fst c) = TARGET_QR_DATA) (Dual.qr_codes f) ->
        fresh (Dual.current_time f) (position_history s')).
Proof.
  intros Hc Hchron.
  destruct (for_qr_codes_window (Dual.current_time f) (Dual.qr_codes f)
              (false, false) s Hc Hchron)
    as [flags [s1 [o1 [Hloop [Hc1 [Hchron1 [Hfresh1 Hseen]]]]]]].
  { intros H. discriminate H. }
  destruct (dual_keys_run f flags s1 Hc1)
    as [s' [o2 [Hrun [_ [_ [_ Hkey]]]]]].
  eexists. exists s'. eexists.
  split; [unfold Dual.loop_body; eapply bind_done; eassumption|].
  destruct (key_code (Dual.wait_key f) =? ord "r")%Z.
  - destruct Hkey as [_ [Hset [Hhist _]]]. rewrite Hhist.
    split; [intros H; congruence|].
    split; [exact I | intros _; constructor].
  - subst s'. split; [exact Hc1 | split; [exact Hchron1|]].
    intros Hex. apply Hfresh1, Hseen. right. exact Hex.
Qed.

(** X17. With a history in time order up to the frame's time, a frame
    that shows the target leaves only samples at most 3.0 old, in both
    scripts and whatever else the frame shows or which key comes with it;
    and any frame leaves the history in time order. *)
Theorem frames_keep_samples_fresh :
  (forall (f : Manual.Frame) (s : Context),
      reference_consistent s ->
      chronological (position_history s) (Manual.current_time f) ->
      exists continue s' out,
        Manual.loop_body f s = Done continue s' out
        /\ chronological (position_history s') (Manual.current_time f)
        /\ (Manual.found_target_qr f <> None ->
            Forall (fun sample => Manual.current_time f - snd sample <= 3.0)
              (position_history s')))
  /\ (forall (f : Dual.Frame) (s : Context),
        reference_consistent s ->
        chronological (position_history s) (Dual.current_time f) ->
        exists continue s' out,
          Dual.loop_body f s = Done continue s' out
          /\ chronological (position_history s') (Dual.current_time f)
          /\ (Exists (fun c => data (fst c) = TARGET_QR_DATA)
                (Dual.qr_codes f) ->
              Forall (fun sample => Dual.current_time f - snd sample <= 3.0)
                (position_history s'))).
Proof.
  split; intros f s Hc Hchron.
  - destruct (manual_frame_window f s Hc Hchron)
      as [continue [s' [out [Hrun [_ [Hchron' Hfresh]]]]]].
    exists continue, s', out. repeat split; assumption.
  - destruct (dual_frame_window f s Hc Hchron)
      as [continue [s' [out [Hrun [_ [Hchron' Hfresh]]]]]].
    exists continue, s', out. repeat split; assumption.
Qed.

Lemma frames_keep_samples_fresh_witness :
  reference_consistent moving_context
  /\ chronological (position_history moving_context)
       (Manual.current_time (still_frame 5))
  /\ exists continue s' out,
      Manual.loop_body (still_frame 5) moving_context = Done continue s' out
      /\ Forall (fun sample => 5 - snd sample <= 3.0) (position_history s').
Proof.
  assert (Hc : reference_consistent moving_context)
    by (intros H; discriminate H).
  assert (Hchron : chronological (position_history moving_context)
                     (Manual.current_time (still_frame 5))).
  { simpl. repeat split; [lra | constructor]. }
  split; [exact Hc|]. split; [exact Hchron|].
  destruct (proj1 frames_keep_samples_fresh (still_frame 5) moving_context
              Hc Hchron) as [continue [s' [out [Hrun [_ Hfresh]]]]].
  exists continue, s', out. split; [exact Hrun|].
  apply Hfresh. discriminate.
Defined.

Lemma manual_run_window (t_end : R) (frames : list Manual.Frame) :
  forall (t : R) (s : Context),
    reference_consistent s ->
    chronological (position_history s) t ->
    t <= t_end ->
    nondecreasing_from t (map Manual.current_time frames) ->
    Forall (fun f => Manual.current_time f <= t_end) frames ->
    exists s' out,
      Manual.main_loop frames s = Done tt s' out
      /\ chronological (position_history s') t_end.
Proof.
  induction frames as [|f frames IH]; intros t s Hc Hchron Hend Hmono Hall;
    simpl.
  - exists s. eexists. split; [reflexivity|].
    eapply chronological_later; eassumption.
  - destruct Hmono as [Hle Hmono].
    inversion Hall as [|? ? Hf Hrest]; subst.
    destruct (manual_frame_window f s Hc
                (chronological_later _ _ _ Hle Hchron))
      as [continue [s1 [o1 [Hbody [Hc1 [Hchron1 _]]]]]].
    destruct continue.
    + destruct (IH (Manual.current_time f) s1 Hc1 Hchron1 Hf Hmono Hrest)
        as [s' [out [Hrun Hchron']]].
      exists s'. eexists. split; [eapply bind_done; eassumption|].
      exact Hchron'.
    + exists s1. eexists.
      split; [eapply bind_done; [exact Hbody | reflexivity]|].
      eapply chronological_later; eassumption.
Qed.

Lemma dual_run_window (t_end : R) (frames : list Dual.Frame) :
  forall (t : R) (s : Context),
    reference_consistent s ->
    chronological (position_history s) t ->
    t <= t_end ->
    nondecreasing_from t (map Dual.current_time frames) ->
    Forall (fun f => Dual.current_time f <= t_end) frames ->
    exists s' out,
      Dual.main_loop frames s = Done tt s' out
      /\ chronological (position_history s') t_end.
Proof.
  induction frames as [|f frames IH]; intros t s Hc Hchron Hend Hmono Hall;
    simpl.
  - exists s. eexists. split; [reflexivity|].
    eapply chronological_later; eassumption.
  - destruct Hmono as [Hle Hmono].
    inversion Hall as [|? ? Hf Hrest]; subst.
    destruct (dual_frame_window f s Hc
                (chronological_later _ _ _ Hle Hchron))
      as [continue [s1 [o1 [Hbody [Hc1 [Hchron1 _]]]]]].
    destruct continue.
    + destruct (IH (Dual.current_time f) s1 Hc1 Hchron1 Hf Hmono Hrest)
        as [s' [out [Hrun Hchron']]].
      exists s'. eexists. split; [eapply bind_done; eassumption|].
      exact Hchron'.
    + exists s1. eexists.
      split; [eapply bind_done; [exact Hbody | reflexivity]|].
      eapply chronological_later; eassumption.
Qed.

(** X18. When the frame times of a run never decrease, the history is in
    time order after the run, in both scripts and from the start of the
    script: the order that bounds the age of every stored sample at the next
    sighting of the target is never broken by the scripts themselves. *)
Theorem steady_clock_keeps_time_order (unit_choice : string) (t_end : R) :
  (forall (t0 : R) (frames : list Manual.Frame),
      t0 <= t_end ->
      nondecreasing_from t0 (map Manual.current_time frames) ->
      Forall (fun f => Manual.current_time f <= t_end) frames ->
      exists s' out,
        Manual.main_loop frames (initial_context unit_choice)
        = Done tt s' out
        /\ chronological (position_history s') t_end)
  /\ (forall (t0 : R) (frames : list Dual.Frame),
        t0 <= t_end ->
        nondecreasing_from t0 (map Dual.current_time frames) ->
        Forall (fun f => Dual.current_time f <= t_end) frames ->
        exists s' out,
          Dual.main_loop frames (initial_context unit_choice)
          = Done tt s' out
          /\ chronological (position_history s') t_end).
Proof.
  assert (Hc : reference_consistent (initial_context unit_choice))
    by (intros H; discriminate H).
  split; intros t0 frames Hend Hmono Hall.
  - apply (manual_run_window t_end frames t0); try assumption. exact I.
  - apply (dual_run_window t_end frames t0); try assumption. exact I.
Qed.

Lemma steady_clock_keeps_time_order_witness :
  0 <= 2
  /\ nondecreasing_from 0
       (map Manual.current_time [still_frame 0.5; still_frame 1.25])
  /\ Forall (fun f => Manual.current_time f <= 2)
       [still_frame 0.5; still_frame 1.25]
  /\ exists s' out,
      Manual.main_loop [still_frame 0.5; still_frame 1.25]
        (initial_context "mm") = Done tt s' out
      /\ chronological (position_history s') 2.
Proof.
  assert (H0 : 0 <= 2) by lra.
  assert (Hmono : nondecreasing_from 0
                    (map Manual.current_time
                       [still_frame 0.5; still_frame 1.25]))
    by (simpl; repeat split; lra).
  assert (Hall : Forall (fun f => Manual.current_time f <= 2)
                   [still_frame 0.5; still_frame 1.25])
    by (repeat (constructor; [simpl; lra|]); constructor).
  split; [exact H0|]. split; [exact Hmono|]. split; [exact Hall|].
  apply (proj1 (steady_clock_keeps_time_order "mm" 2) 0
           [still_frame 0.5; still_frame 1.25] H0 Hmono Hall).
Defined.

(** ** A target that jumps *)

Lemma update_with_movement (s : Context) (cur : pixel) (now ppm : R) :
  recent_positions (position_history s) now <> [] ->
  pixels_per_mm s = Some ppm ->
  0 < ppm ->
  2.5 < distance_pixels cur
          (avg_position (recent_positions (position_history s) now)) / ppm ->
  exists s',
    update_position_history cur now s = Done tt s' []
    /\ last_movement_time s' = Some now.
Proof.
  intros Hrec Hppm Hpos Hfar. unfold update_position_history. unfold_monad.
  destruct (position_history s) as [|smp d] eqn:Hd;
    [exfalso; apply Hrec; reflexivity|].
  simpl length. simpl Nat.eqb. cbv iota.
  destruct (recent_positions (smp :: d) now) as [|r recent] eqn:Hrecent;
    [congruence|].
  rewrite Hppm.
  replace (Reqb ppm 0) with false by (symmetry; apply Reqb_false; lra).
  replace (Rltb 0 ppm) with true by (symmetry; apply Rltb_true; exact Hpos).
  unfold MOVEMENT_THRESHOLD_MM.
  replace (Rltb 2.5 _) with true by (symmetry; apply Rltb_true; exact Hfar).
  simpl. eexists. split; reflexivity.
Qed.

Lemma distance_pixels_integer (a b : pixel) :
  distance_pixels a (IZR (fst b), IZR (snd b)) = pixel_distance a b.
Proof.
  unfold distance_pixels, pixel_distance. simpl fst. simpl snd.
  rewrite IZR_sum_squares, !minus_IZR. reflexivity.
Qed.

(** X19. A jump is flagged at once: when the stored samples all lie at one
    pixel, one of them is at most 0.5 old, the scale is positive and the new
    sample lies more than 2.5 times the scale in pixels from that pixel, the
    update sets [last_movement_time] to [now]. *)
Theorem jump_is_movement (s : Context) (rest cur : pixel) (now ppm : R)
  (t : R) :
  stationary rest (position_history s) ->
  In (rest, t) (position_history s) ->
  now - t <= 0.5 ->
  pixels_per_mm s = Some ppm ->
  0 < ppm ->
  2.5 * ppm < pixel_distance cur rest ->
  exists s',
    update_position_history cur now s = Done tt s' []
    /\ last_movement_time s' = Some now.
Proof.
  intros Hst Hin Hage Hppm Hpos Hfar.
  assert (Hrec : recent_positions (position_history s) now <> []).
  { intros Hnil.
    assert (Hr : In rest (recent_positions (position_history s) now))
      by (apply recent_positions_spec; exists t; split; assumption).
    rewrite Hnil in Hr. destruct Hr. }
  apply (update_with_movement s cur now ppm Hrec Hppm Hpos).
  rewrite (avg_position_constant rest)
    by (try exact Hrec; apply recent_positions_stationary; exact Hst).
  rewrite distance_pixels_integer.
  apply (Rmult_lt_reg_r ppm); [exact Hpos|].
  unfold Rdiv. rewrite Rmult_assoc, Rinv_l by lra. lra.
Qed.

Lemma jump_is_movement_witness :
  stationary (0, 0)%Z (position_history moving_context)
  /\ In ((0, 0)%Z, 0) (position_history moving_context)
  /\ 0.25 - 0 <= 0.5
  /\ pixels_per_mm moving_context = Some 1
  /\ 0 < 1
  /\ 2.5 * 1 < pixel_distance (3, 4)%Z (0, 0)%Z
  /\ exists s',
      update_position_history (3, 4)%Z 0.25 moving_context = Done tt s' []
      /\ last_movement_time s' = Some 0.25.
Proof.
  assert (Hst : stationary (0, 0)%Z (position_history moving_context))
    by (repeat constructor).
  assert (Hin : In ((0, 0)%Z, 0) (position_history moving_context))
    by (left; reflexivity).
  assert (Hage : 0.25 - 0 <= 0.5) by lra.
  assert (Hpos : 0 < 1) by lra.
  assert (Hfar : 2.5 * 1 < pixel_distance (3, 4)%Z (0, 0)%Z).
  { apply pixel_distance_gt; [lra|]. simpl fst. simpl snd.
    replace ((3 - 0) ^ 2 + (4 - 0) ^ 2)%Z with 25%Z by reflexivity. lra. }
  repeat (split; [assumption || reflexivity|]).
  apply (jump_is_movement moving_context (0, 0)%Z (3, 4)%Z 0.25 1 0
           Hst Hin Hage eq_refl Hpos Hfar).
Defined.
